(** * An address-book assistant: embedding of [last_task.py] and its properties

    The program is a small Python command-line assistant.  It keeps an
    [AddressBook] (a dict from names to [Record] objects), each record owning
    a [Name], a list of [Phone]s and an optional [Birthday].  Command
    handlers, wrapped by the [input_error] decorator, translate argument
    lists into calls on the book.

    The embedding below follows the source function by function.  Python
    strings are sequences of Unicode code points; exceptions are values of
    an inductive type threaded through a state-and-error monad; the dict is
    an insertion-ordered association list; [datetime] values are kept as a
    proleptic Gregorian ordinal and a time of day. *)

From Stdlib Require Import Strings.String Strings.Ascii.
From Stdlib Require Import ZArith NArith Lia.
From stdpp Require Import base tactics option list numbers.

Local Open Scope Z_scope.

(** ** Python strings *)

(** A [str] is a sequence of code points.  [len] is [length], [==] is
    equality of the sequences, [+] and f-string splicing are [++]. *)
Definition pystr : Type := list N.

(** String literals of the source, written as Rocq strings. *)
Definition str (s : String.string) : pystr :=
  List.map Ascii.N_of_ascii (String.list_ascii_of_string s).
Arguments str s%_string_scope.

(** Truthiness of a [str]: the empty string is falsy. *)
Definition str_truthy (s : pystr) : bool :=
  match s with [] => false | _ :: _ => true end.

(** ** Unicode digit classes

    [str.isdigit], the regular-expression class [\d] and [int] depend on the
    Unicode character database.  The two tables are those of Unicode 14.0
    (CPython 3.11).  [decimal_ranges] lists the characters of general category
    Nd (Numeric_Type=Decimal); they come in runs of ten ordered by value, so
    the value of a character is its offset in its range modulo 10.
    [digit_only_ranges] lists the characters with Numeric_Type=Digit that are
    not decimal (superscripts, circled digits and the like). *)
Definition decimal_ranges : list (N * N) :=
  [(48, 57); (1632, 1641); (1776, 1785); (1984, 1993); (2406, 2415);
   (2534, 2543); (2662, 2671); (2790, 2799); (2918, 2927); (3046, 3055);
   (3174, 3183); (3302, 3311); (3430, 3439); (3558, 3567); (3664, 3673);
   (3792, 3801); (3872, 3881); (4160, 4169); (4240, 4249); (6112, 6121);
   (6160, 6169); (6470, 6479); (6608, 6617); (6784, 6793); (6800, 6809);
   (6992, 7001); (7088, 7097); (7232, 7241); (7248, 7257); (42528, 42537);
   (43216, 43225); (43264, 43273); (43472, 43481); (43504, 43513);
   (43600, 43609); (44016, 44025); (65296, 65305); (66720, 66729);
   (68912, 68921); (69734, 69743); (69872, 69881); (69942, 69951);
   (70096, 70105); (70384, 70393); (70736, 70745); (70864, 70873);
   (71248, 71257); (71360, 71369); (71472, 71481); (71904, 71913);
   (72016, 72025); (72784, 72793); (73040, 73049); (73120, 73129);
   (92768, 92777); (92864, 92873); (93008, 93017); (120782, 120831);
   (123200, 123209); (123632, 123641); (125264, 125273);
   (130032, 130041)]%N.

Definition digit_only_ranges : list (N * N) :=
  [(178, 179); (185, 185); (4969, 4977); (6618, 6618); (8304, 8304);
   (8308, 8313); (8320, 8329); (9312, 9320); (9332, 9340); (9352, 9360);
   (9450, 9450); (9461, 9469); (9471, 9471); (10102, 10110); (10112, 10120);
   (10122, 10130); (68160, 68163); (69216, 69224); (69714, 69722);
   (127232, 127242)]%N.

Definition in_range (c : N) (r : N * N) : bool :=
  ((fst r <=? c) && (c <=? snd r))%N.

Definition in_ranges (rs : list (N * N)) (c : N) : bool :=
  existsb (in_range c) rs.

(** [ch.isdecimal()], also the characters matched by [\d]. *)
Definition isdecimal_char (c : N) : bool := in_ranges decimal_ranges c.

(** [ch.isdigit()] for a single character. *)
Definition isdigit_char (c : N) : bool :=
  isdecimal_char c || in_ranges digit_only_ranges c.

(** [str.isdigit]: all characters are digits and there is at least one. *)
Definition isdigit (s : pystr) : bool :=
  str_truthy s && forallb isdigit_char s.

(** The ASCII digits [0] to [9]. *)
Definition ascii_digit (c : N) : bool := ((48 <=? c) && (c <=? 57))%N.

(** The value of a decimal character ([unicodedata.decimal]). *)
Definition decimal_value (c : N) : Z :=
  match List.find (in_range c) decimal_ranges with
  | Some (lo, _) => Z.of_N ((c - lo) mod 10)
  | None => 0
  end.

(** ** Exceptions and the state-and-error monad *)

Inductive exn : Type :=
  | ValueError (msg : pystr)
  | KeyError
  | IndexError
  | OverflowError (msg : pystr).

(** A computation over a mutable state [S]: it ends with a value or a raised
    exception, and in both cases with the state as mutated so far. *)
Definition M (S A : Type) : Type := S -> (exn + A) * S.

Definition ret {S A} (a : A) : M S A := fun s => (inr a, s).

Definition raise {S A} (e : exn) : M S A := fun s => (inl e, s).

Definition bind {S A B} (m : M S A) (k : A -> M S B) : M S B :=
  fun s =>
    match m s with
    | (inr a, s') => k a s'
    | (inl e, s') => (inl e, s')
    end.

Definition get {S} : M S S := fun s => (inr s, s).

Definition put {S} (s' : S) : M S unit := fun _ => (inr tt, s').

(** An expression that may raise but does not touch the state. *)
Definition lift {S A} (r : exn + A) : M S A := fun s => (r, s).

(** [try: m except ...: h]: the handler [h] says which exceptions it catches. *)
Definition try_except {S A} (m : M S A) (h : exn -> option (M S A)) : M S A :=
  fun s =>
    match m s with
    | (inr a, s') => (inr a, s')
    | (inl e, s') =>
        match h e with
        | Some m' => m' s'
        | None => (inl e, s')
        end
    end.

Declare Scope py_scope.
Delimit Scope py_scope with py.
Notation "x <- m ;; k" := (bind m (fun x => k))
  (at level 100, m at next level, right associativity) : py_scope.
Notation "m ;;; k" := (bind m (fun _ => k))
  (at level 100, right associativity) : py_scope.
Local Open Scope py_scope.

(** [except ValueError as e: return str(e)] *)
Definition except_ValueError_str {S} (e : exn) : option (M S pystr) :=
  match e with
  | ValueError msg => Some (ret msg)
  | _ => None
  end.

(** ** Regular expressions, as [_strptime] uses them

    [re.match] tries the alternatives of a pattern from left to right and
    backtracks; [matches r s] lists, in that order of preference, every way
    [r] can match a prefix of [s], as the matched text and the rest. *)
Inductive re : Type :=
  | Chr (p : N -> bool)
  | Cat (r1 r2 : re)
  | Alt (r1 r2 : re).

Fixpoint matches (r : re) (s : pystr) : list (pystr * pystr) :=
  match r with
  | Chr p =>
      match s with
      | c :: t => if p c then [([c], t)] else []
      | [] => []
      end
  | Cat r1 r2 =>
      a ← matches r1 s;
      b ← matches r2 (snd a);
      [(fst a ++ fst b, snd b)]
  | Alt r1 r2 => matches r1 s ++ matches r2 s
  end.

Definition lit (c : N) : re := Chr (N.eqb c).
Definition rng (lo hi : N) : re := Chr (fun c => in_range c (lo, hi)).
Definition re_digit : re := Chr isdecimal_char.
Arguments lit c%_N.
Arguments rng (lo hi)%_N.

(** [%d] is [(?P<d>3[0-1]|[1-2]\d|0[1-9]|[1-9]| [1-9])]. *)
Definition re_d : re :=
  Alt (Cat (lit 51) (rng 48 49))
 (Alt (Cat (rng 49 50) re_digit)
 (Alt (Cat (lit 48) (rng 49 57))
 (Alt (rng 49 57)
      (Cat (lit 32) (rng 49 57))))).

(** [%m] is [(?P<m>1[0-2]|0[1-9]|[1-9])]. *)
Definition re_m : re :=
  Alt (Cat (lit 49) (rng 48 50))
 (Alt (Cat (lit 48) (rng 49 57))
      (rng 49 57)).

(** [%Y] is [(?P<Y>\d\d\d\d)]. *)
Definition re_Y : re :=
  Cat re_digit (Cat re_digit (Cat re_digit re_digit)).

(** The dot of the format, escaped to [\.]. *)
Definition re_dot : re := lit 46.

(** The pattern of the format ["%d.%m.%Y"]: every match as the texts of the
    groups [d], [m], [Y] and the unmatched rest of the input. *)
Definition match_dmY (s : pystr) : list (pystr * pystr * pystr * pystr) :=
  d ← matches re_d s;
  p1 ← matches re_dot (snd d);
  m ← matches re_m (snd p1);
  p2 ← matches re_dot (snd m);
  y ← matches re_Y (snd p2);
  [(fst d, fst m, fst y, snd y)].

(** [int] on the text of a group: the groups hold decimal digits, [d] maybe
    after one space, which [int] skips. *)
Definition int_digits (s : pystr) : Z :=
  fold_left (fun acc c => 10 * acc + decimal_value c) s 0.

Definition py_int (s : pystr) : Z :=
  match s with
  | c :: t => if (c =? 32)%N then int_digits t else int_digits s
  | [] => int_digits s
  end.

(** ** Dates *)

Definition MINYEAR : Z := 1.
Definition MAXYEAR : Z := 9999.
Definition MAXORDINAL : Z := 3652059.

Definition is_leap (year : Z) : bool :=
  (year mod 4 =? 0) && (negb (year mod 100 =? 0) || (year mod 400 =? 0)).

Definition DAYS_IN_MONTH : list Z :=
  [-1; 31; 28; 31; 30; 31; 30; 31; 31; 30; 31; 30; 31].

Definition DAYS_BEFORE_MONTH : list Z :=
  [-1; 0; 31; 59; 90; 120; 151; 181; 212; 243; 273; 304; 334].

Definition days_in_month (year month : Z) : Z :=
  if (month =? 2) && is_leap year then 29
  else nth (Z.to_nat month) DAYS_IN_MONTH 0.

Definition days_before_year (year : Z) : Z :=
  let y := year - 1 in
  y * 365 + y / 4 - y / 100 + y / 400.

Definition days_before_month (year month : Z) : Z :=
  nth (Z.to_nat month) DAYS_BEFORE_MONTH 0
  + (if (2 <? month) && is_leap year then 1 else 0).

Definition ymd2ord (year month day : Z) : Z :=
  days_before_year year + days_before_month year month + day.

(** A naive [datetime]: the day as its proleptic Gregorian ordinal (day 1 is
    0001-01-01, what [toordinal] returns) and the time of day in microseconds.
    [toordinal] is strictly increasing in (year, month, day), so comparing
    two values field by field, as [datetime] does, is comparing the pairs
    below. *)
Record datetime : Type := mk_datetime {
  ordinal : Z;
  tod : Z
}.

Definition MICROS_PER_DAY : Z := 86400000000.

(** [datetime(year, month, day)], at midnight.  The constructor checks the
    year, then the month, then the day.  (The message for the year is
    abbreviated: Python splices the number into it.) *)
Definition datetime_new (year month day : Z) : exn + datetime :=
  if negb ((MINYEAR <=? year) && (year <=? MAXYEAR))
  then inl (ValueError (str "year is out of range"))
  else if negb ((1 <=? month) && (month <=? 12))
  then inl (ValueError (str "month must be in 1..12"))
  else if negb ((1 <=? day) && (day <=? days_in_month year month))
  then inl (ValueError (str "day is out of range for month"))
  else inr (mk_datetime (ymd2ord year month day) 0).

(** [dt.weekday()]: Monday is 0, Sunday is 6. *)
Definition weekday (dt : datetime) : Z := (ordinal dt + 6) mod 7.

(** [dt + timedelta(days=n)]: the time of day is kept; a day outside
    [1 .. MAXORDINAL] raises [OverflowError]. *)
Definition add_days (dt : datetime) (n : Z) : exn + datetime :=
  let days := ordinal dt + n in
  if (0 <? days) && (days <=? MAXORDINAL)
  then inr (mk_datetime days (tod dt))
  else inl (OverflowError (str "date value out of range")).

(** [a <= b] on naive datetimes. *)
Definition datetime_le (a b : datetime) : bool :=
  (ordinal a <? ordinal b)
  || ((ordinal a =? ordinal b) && (tod a <=? tod b)).

(** [datetime.strptime(data_string, "%d.%m.%Y")].  The first match of the
    pattern decides; text left over after it is an error, and so is a date
    that the [datetime] constructor rejects.  The texts of the first two
    messages are abbreviated: Python splices the [repr] of its arguments into
    them. *)
Definition strptime_dmY (data_string : pystr) : exn + datetime :=
  match match_dmY data_string with
  | [] => inl (ValueError (str "time data does not match format"))
  | (d, m, y, rest) :: _ =>
      if str_truthy rest
      then inl (ValueError (str "unconverted data remains: " ++ rest))
      else datetime_new (py_int y) (py_int m) (py_int d)
  end.

(** ** The field classes *)

Module Name.
Record t : Type := mk { value : pystr }.
(** [Name(value)] is [Field.__init__]. *)
Definition init (value : pystr) : t := mk value.
End Name.

Module Phone.
Record t : Type := mk { value : pystr }.

Definition invalid_msg : pystr :=
  str "Invalid phone number format. Must be 10 digits.".

(** [Phone(value)] *)
Definition init (value : pystr) : exn + t :=
  if negb (isdigit value) || negb (length value =? 10)%nat
  then inl (ValueError invalid_msg)
  else inr (mk value).

(** [str(phone)] *)
Definition to_str (self : t) : pystr := value self.
End Phone.

Module Birthday.
Record t : Type := mk { value : pystr }.

Definition invalid_msg : pystr :=
  str "Invalid date format. Please use DD.MM.YYYY.".

(** [Birthday.validate]: any [ValueError] of [strptime] is replaced. *)
Definition validate (value : pystr) : exn + pystr :=
  match strptime_dmY value with
  | inr _ => inr value
  | inl (ValueError _) => inl (ValueError invalid_msg)
  | inl e => inl e
  end.

(** [Birthday(value)] *)
Definition init (value : pystr) : exn + t :=
  match validate value with
  | inr v => inr (mk v)
  | inl e => inl e
  end.

Definition to_str (self : t) : pystr := value self.
End Birthday.

(** [sep.join(parts)] *)
Fixpoint join (sep : pystr) (parts : list pystr) : pystr :=
  match parts with
  | [] => []
  | [x] => x
  | x :: rest => x ++ sep ++ join sep rest
  end.

(** ** Record *)

Module Record_.
Record t : Type := mk {
  name : Name.t;
  phones : list Phone.t;
  birthday : option Birthday.t
}.

Definition set_phones (ps : list Phone.t) (self : t) : t :=
  mk (name self) ps (birthday self).

Definition set_birthday (b : option Birthday.t) (self : t) : t :=
  mk (name self) (phones self) b.

(** A [Birthday] object has neither [__bool__] nor [__len__]: it is truthy,
    and [not self.birthday] holds exactly when the attribute is [None]. *)
Definition add_birthday (date : pystr) : M t unit :=
  self <- get ;;
  match birthday self with
  | None =>
      b <- lift (Birthday.init date) ;;
      put (set_birthday (Some b) self)
  | Some _ => raise (ValueError (str "Birthday already set."))
  end.

Definition show_birthday (self : t) : pystr :=
  match birthday self with
  | Some b => str "Birthday: " ++ Birthday.to_str b
  | None => str "No birthday set."
  end.

Definition add_phone (phone : pystr) : M t pystr :=
  try_except
    (phone_obj <- lift (Phone.init phone) ;;
     self <- get ;;
     put (set_phones (phones self ++ [phone_obj]) self) ;;;
     ret (str "Phone " ++ Phone.to_str phone_obj ++ str " added."))
    except_ValueError_str.

(** The position of the first phone whose value is [phone], which is where
    the [for] loops of [remove_phone], [edit_phone] and [find_phone] stop. *)
Definition first_with_value (phone : pystr) (ps : list Phone.t)
  : option (nat * Phone.t) :=
  list_find (fun p => Phone.value p = phone) ps.

(** [self.phones.remove(phone_obj)] removes the first element equal to
    [phone_obj]; phones compare by identity and every element of the list
    is an object of its own, so that is the element the loop stopped at. *)
Definition remove_phone (phone : pystr) : M t pystr :=
  self <- get ;;
  match first_with_value phone (phones self) with
  | Some (i, _) =>
      put (set_phones (delete i (phones self)) self) ;;;
      ret (str "Phone " ++ phone ++ str " removed.")
  | None => ret (str "Phone " ++ phone ++ str " not found.")
  end.

Definition edit_phone (old_phone new_phone : pystr) : M t pystr :=
  self <- get ;;
  match first_with_value old_phone (phones self) with
  | Some (i, _) =>
      try_except
        (new_phone_obj <- lift (Phone.init new_phone) ;;
         put (set_phones (<[i:=new_phone_obj]> (phones self)) self) ;;;
         ret (str "Phone " ++ old_phone ++ str " edited to "
              ++ new_phone ++ str "."))
        except_ValueError_str
  | None => ret (str "Phone " ++ old_phone ++ str " not found.")
  end.

Definition find_phone (phone : pystr) (self : t) : option Phone.t :=
  snd <$> first_with_value phone (phones self).

(** [Record(name, phone, birthday)].  An argument is [None] or a string;
    [if phone:] holds for a string that is not empty.  What [add_phone]
    returns is dropped. *)
Definition init (name_ : pystr) (phone birthday_ : option pystr)
  : exn + t :=
  let body : M t unit :=
    (match phone with
     | Some ph => if str_truthy ph then (add_phone ph ;;; ret tt) else ret tt
     | None => ret tt
     end) ;;;
    (match birthday_ with
     | Some bd => if str_truthy bd then add_birthday bd else ret tt
     | None => ret tt
     end) in
  match body (mk (Name.init name_) [] None) with
  | (inr _, self) => inr self
  | (inl e, _) => inl e
  end.

(** [str(record)] *)
Definition to_str (self : t) : pystr :=
  let phones_str := join (str "; ") (Phone.to_str <$> phones self) in
  str "Contact name: " ++ Name.value (name self) ++ str ", phones: "
  ++ phones_str ++ show_birthday self.
End Record_.

(** ** Dictionaries

    A Python [dict] keeps its keys in insertion order; assigning to a key
    that is present replaces the value where it stands, assigning to a new
    key appends. *)
Module Dict.
Section Ops.
Context {V : Type}.

Definition t : Type := list (pystr * V).

(** [d.get(k)] *)
Fixpoint get (k : pystr) (d : t) : option V :=
  match d with
  | [] => None
  | (k', v) :: rest => if decide (k' = k) then Some v else get k rest
  end.

(** [d[k] = v] *)
Fixpoint set (k : pystr) (v : V) (d : t) : t :=
  match d with
  | [] => [(k, v)]
  | (k', v') :: rest =>
      if decide (k' = k) then (k', v) :: rest
      else (k', v') :: set k v rest
  end.

(** [del d[k]] *)
Fixpoint del (k : pystr) (d : t) : t :=
  match d with
  | [] => []
  | (k', v') :: rest =>
      if decide (k' = k) then rest else (k', v') :: del k rest
  end.

(** [k in d] *)
Definition contains (k : pystr) (d : t) : bool :=
  match get k d with Some _ => true | None => false end.

Definition keys (d : t) : list pystr := fst <$> d.

(** [d.values()] *)
Definition values (d : t) : list V := snd <$> d.
End Ops.
Arguments t : clear implicits.
End Dict.

(** ** AddressBook *)

Module AddressBook.
Record t : Type := mk { data : Dict.t Record_.t }.

(** [AddressBook()] *)
Definition init : t := mk [].

Definition add_record (record : Record_.t) : M t unit :=
  self <- get ;;
  put (mk (Dict.set (Name.value (Record_.name record)) record (data self))).

Definition find (name : pystr) : M t (option Record_.t) :=
  self <- get ;;
  ret (Dict.get name (data self)).

Definition delete (name : pystr) : M t pystr :=
  self <- get ;;
  if Dict.contains name (data self)
  then put (mk (Dict.del name (data self))) ;;;
       ret (str "Contact " ++ name ++ str " deleted.")
  else ret (str "Contact " ++ name ++ str " not found.").

(** A method call on [contact], the object that [find] returned for [key]:
    the book holds that very object, so what the method does to it shows in
    the book, at the place of [key]. *)
Definition on_contact {A} (key : pystr) (contact : Record_.t)
    (method : M Record_.t A) : M t A :=
  fun self =>
    let (res, contact') := method contact in
    (res, mk (Dict.set key contact' (data self))).

(** The body of the [for] loop of [get_birthdays_per_week], run over the
    records left to visit with the list built so far. *)
Fixpoint birthdays_loop (next_week_start next_week_end : datetime)
    (records : list Record_.t) (upcoming_birthdays : list (pystr * pystr))
  : exn + list (pystr * pystr) :=
  match records with
  | [] => inr upcoming_birthdays
  | record :: rest =>
      match Record_.birthday record with
      | Some b =>
          match strptime_dmY (Birthday.value b) with
          | inr birthday_date =>
              if datetime_le next_week_start birthday_date
                 && datetime_le birthday_date next_week_end
              then birthdays_loop next_week_start next_week_end rest
                     (upcoming_birthdays
                      ++ [(Name.value (Record_.name record),
                           Birthday.value b)])
              else birthdays_loop next_week_start next_week_end rest
                     upcoming_birthdays
          | inl e => inl e
          end
      | None =>
          birthdays_loop next_week_start next_week_end rest
            upcoming_birthdays
      end
  end.

(** [get_birthdays_per_week]; [now] is what [datetime.now()] returns. *)
Definition get_birthdays_per_week (now : datetime)
  : M t (list (pystr * pystr)) :=
  self <- get ;;
  let today := now in
  next_week_start <- lift (add_days today ((6 - weekday today) + 7)) ;;
  next_week_end <- lift (add_days next_week_start 6) ;;
  lift (birthdays_loop next_week_start next_week_end
          (Dict.values (data self)) []).
End AddressBook.

(** ** The decorator and the command handlers *)

Definition contact_not_found_msg : pystr := str "Contact not found.".
Definition invalid_command_msg : pystr := str "Invalid command format.".

(** [input_error(func)]: the three [except] clauses; any other exception
    goes through. *)
Definition input_error {S} (func : M S pystr) : M S pystr :=
  try_except func
    (fun e =>
       match e with
       | ValueError msg => Some (ret msg)
       | KeyError => Some (ret contact_not_found_msg)
       | IndexError => Some (ret invalid_command_msg)
       | OverflowError _ => None
       end).

Definition add_contact_func (args : list pystr) : M AddressBook.t pystr :=
  match args with
  | [name; phone] =>
      record <- lift (Record_.init name (Some phone) None) ;;
      AddressBook.add_record record ;;;
      ret (str "Contact added.")
  | _ => raise (ValueError (str "Give me name and phone please."))
  end.

Definition add_contact (args : list pystr) : M AddressBook.t pystr :=
  input_error (add_contact_func args).

(** [contact.phones[0] = value]: the value is already computed; the list
    raises [IndexError] when it has no element 0. *)
Definition phones_setitem (i : nat) (value : Phone.t) : M Record_.t unit :=
  self <- get ;;
  if decide (i < length (Record_.phones self))%nat
  then put (Record_.set_phones (<[i:=value]> (Record_.phones self)) self)
  else raise IndexError.

(** In [contact.phones[0] = Phone(new_phone)] the right-hand side is
    evaluated first. *)
Definition change_contact_func (args : list pystr) : M AddressBook.t pystr :=
  match args with
  | [name; new_phone] =>
      contact <- AddressBook.find name ;;
      match contact with
      | Some c =>
          value <- lift (Phone.init new_phone) ;;
          AddressBook.on_contact name c (phones_setitem 0 value) ;;;
          ret (str "Contact updated.")
      | None => raise KeyError
      end
  | _ => raise IndexError
  end.

Definition change_contact (args : list pystr) : M AddressBook.t pystr :=
  input_error (change_contact_func args).

Definition show_phone_func (args : list pystr) : M AddressBook.t pystr :=
  match args with
  | [name] =>
      contact <- AddressBook.find name ;;
      match contact with
      | Some c =>
          match Record_.phones c with
          | p :: _ => ret (Phone.value p)
          | [] => raise KeyError
          end
      | None => raise KeyError
      end
  | _ => raise (ValueError (str "Enter the contact name."))
  end.

Definition show_phone (args : list pystr) : M AddressBook.t pystr :=
  input_error (show_phone_func args).

Definition add_birthday_func (args : list pystr) : M AddressBook.t pystr :=
  match args with
  | [name; date] =>
      contact <- AddressBook.find name ;;
      match contact with
      | Some c =>
          try_except
            (AddressBook.on_contact name c (Record_.add_birthday date) ;;;
             ret (str "Birthday added for " ++ name ++ str "."))
            except_ValueError_str
      | None => ret (str "Contact " ++ name ++ str " not found.")
      end
  | _ =>
      ret (str "Invalid command format. Use 'add_birthday [name] [DD.MM.YYYY]'.")
  end.

Definition add_birthday (args : list pystr) : M AddressBook.t pystr :=
  input_error (add_birthday_func args).

(** [name, = args]: unpacking into one target raises [ValueError] unless the
    list has exactly one element (messages of CPython 3.11). *)
Definition unpack1 {S} (args : list pystr) : M S pystr :=
  match args with
  | [name] => ret name
  | [] =>
      raise (ValueError (str "not enough values to unpack (expected 1, got 0)"))
  | _ :: _ :: _ =>
      raise (ValueError (str "too many values to unpack (expected 1)"))
  end.

Definition show_birthday_func (args : list pystr) : M AddressBook.t pystr :=
  name <- unpack1 args ;;
  contact <- AddressBook.find name ;;
  match contact with
  | Some c => ret (Record_.show_birthday c)
  | None => ret (str "Contact " ++ name ++ str " not found.")
  end.

Definition show_birthday (args : list pystr) : M AddressBook.t pystr :=
  input_error (show_birthday_func args).

Definition newline : pystr := [10%N].

Definition birthdays_func (now : datetime) : M AddressBook.t pystr :=
  upcoming_birthdays <- AddressBook.get_birthdays_per_week now ;;
  match upcoming_birthdays with
  | _ :: _ =>
      ret (join newline
             ((fun nd => fst nd ++ str ": " ++ snd nd) <$> upcoming_birthdays))
  | [] => ret (str "No upcoming birthdays in the next week.")
  end.

Definition birthdays (now : datetime) : M AddressBook.t pystr :=
  input_error (birthdays_func now).

(** ** Whitespace

    [str.split()], [str.strip()] and [str.rstrip()] without arguments cut at
    the characters for which [str.isspace] holds (Unicode 14.0). *)
Definition whitespace_ranges : list (N * N) :=
  [(9, 13); (28, 32); (133, 133); (160, 160); (5760, 5760); (8192, 8202);
   (8232, 8233); (8239, 8239); (8287, 8287); (12288, 12288)]%N.

Definition isspace_char (c : N) : bool := in_ranges whitespace_ranges c.

(** [s.lstrip()] *)
Fixpoint lstrip (s : pystr) : pystr :=
  match s with
  | c :: t => if isspace_char c then lstrip t else s
  | [] => []
  end.

(** [s.rstrip()] *)
Definition rstrip (s : pystr) : pystr := reverse (lstrip (reverse s)).

(** [s.strip()] *)
Definition strip (s : pystr) : pystr := rstrip (lstrip s).

(** [s.split()]: the maximal runs of characters that are not whitespace;
    [word] is the run being read. *)
Fixpoint split_from (word : pystr) (s : pystr) : list pystr :=
  match s with
  | [] => if str_truthy word then [word] else []
  | c :: t =>
      if isspace_char c
      then if str_truthy word then word :: split_from [] t
           else split_from [] t
      else split_from (word ++ [c]) t
  end.

Definition split (s : pystr) : list pystr := split_from [] s.

(** ** The listing handler *)

(** A dict is truthy when it has an entry. *)
Definition show_all_func : M AddressBook.t pystr :=
  book <- get ;;
  match AddressBook.data book with
  | _ :: _ =>
      let result :=
        fold_left (fun result record => result ++ (Record_.to_str record ++ newline))
          (Dict.values (AddressBook.data book)) [] in
      ret (rstrip result)
  | [] => ret (str "No contacts available.")
  end.

Definition show_all : M AddressBook.t pystr := input_error show_all_func.

(** ** The command loop

    [str.lower] needs the case mappings of the Unicode database; the loop is
    modelled for an arbitrary function [lower] in its place.  A run of the
    program reads lines until one says to stop; each line comes with what the
    clock shows when it is handled. *)
Inductive output : Type :=
  | Prompt (s : pystr)
  | Print (s : pystr).

(** How a run ends: the exit command, no line left for [input] (Python
    raises [EOFError]), or an exception that nothing catches. *)
Inductive ending : Type :=
  | Exited
  | EndOfInput
  | Raised (e : exn).

Definition prompt_msg : pystr := str "Enter a command: ".
Definition welcome_msg : pystr := str "Welcome to the assistant bot!".

Section CommandLoop.
Variable lower : pystr -> pystr.

(** [cmd, *args = user_input.split()] needs at least one word. *)
Definition parse_input (user_input : pystr) : exn + (pystr * list pystr) :=
  match split user_input with
  | cmd :: args => inr (lower (strip cmd), args)
  | [] =>
      inl (ValueError
             (str "not enough values to unpack (expected at least 1, got 0)"))
  end.

(** The [if] chain of [main] after the exit test: what is printed. *)
Definition dispatch (command : pystr) (args : list pystr) (now : datetime)
  : M AddressBook.t pystr :=
  if decide (command = str "hello") then ret (str "How can I help you?")
  else if decide (command = str "add") then add_contact args
  else if decide (command = str "change") then change_contact args
  else if decide (command = str "phone") then show_phone args
  else if decide (command = str "all") then show_all
  else if decide (command = str "add_birthday") then add_birthday args
  else if decide (command = str "show_birthday") then show_birthday args
  else if decide (command = str "birthdays") then birthdays now
  else ret (str "Invalid command.").

(** The [while] loop of [main] on the lines that are still to come. *)
Fixpoint main_loop (lines : list (pystr * datetime)) (book : AddressBook.t)
  : list output * AddressBook.t * ending :=
  match lines with
  | [] => ([Prompt prompt_msg], book, EndOfInput)
  | (user_input, now) :: rest =>
      match parse_input user_input with
      | inl e => ([Prompt prompt_msg], book, Raised e)
      | inr (command, args) =>
          if bool_decide (command = str "close")
             || bool_decide (command = str "exit")
          then ([Prompt prompt_msg; Print (str "Goodbye!")], book, Exited)
          else
            match dispatch command args now book with
            | (inr text, book') =>
                let '(out, final, e) := main_loop rest book' in
                (Prompt prompt_msg :: Print text :: out, final, e)
            | (inl e, book') => ([Prompt prompt_msg], book', Raised e)
            end
      end
  end.

(** [main()] *)
Definition main (lines : list (pystr * datetime))
  : list output * AddressBook.t * ending :=
  let '(out, final, e) := main_loop lines AddressBook.init in
  (Print welcome_msg :: out, final, e).
End CommandLoop.

(** ** Sequences of operations on a book

    A client holds the book and calls the handlers, [add_record] with a
    fresh [Record], [delete], and the phone methods on the record that
    [find] returns.  Whether or not a call raises, the book stays as the call
    left it. *)
Inductive op : Type :=
  | OpAddContact (args : list pystr)
  | OpChangeContact (args : list pystr)
  | OpAddBirthday (args : list pystr)
  | OpAddRecord (name : pystr) (phone birthday : option pystr)
  | OpDelete (name : pystr)
  | OpAddPhone (name phone : pystr)
  | OpEditPhone (name old_phone new_phone : pystr)
  | OpRemovePhone (name phone : pystr).

(** [book.find(name).method(...)], skipped when [find] returns [None]. *)
Definition call_method {A} (name : pystr) (method : M Record_.t A)
  : M AddressBook.t unit :=
  contact <- AddressBook.find name ;;
  match contact with
  | Some c => AddressBook.on_contact name c method ;;; ret tt
  | None => ret tt
  end.

Definition run_op (o : op) : M AddressBook.t unit :=
  match o with
  | OpAddContact args => add_contact args ;;; ret tt
  | OpChangeContact args => change_contact args ;;; ret tt
  | OpAddBirthday args => add_birthday args ;;; ret tt
  | OpAddRecord name phone birthday =>
      record <- lift (Record_.init name phone birthday) ;;
      AddressBook.add_record record
  | OpDelete name => AddressBook.delete name ;;; ret tt
  | OpAddPhone name phone => call_method name (Record_.add_phone phone)
  | OpEditPhone name old_phone new_phone =>
      call_method name (Record_.edit_phone old_phone new_phone)
  | OpRemovePhone name phone => call_method name (Record_.remove_phone phone)
  end.

(** The book after a sequence of operations. *)
Definition run_ops (ops : list op) (book : AddressBook.t) : AddressBook.t :=
  fold_left (fun b o => snd (run_op o b)) ops book.

(** ** Notions of the specification *)

(** The phone format: ten characters, all of them digits for [str.isdigit]. *)
Definition ten_digits (s : pystr) : bool :=
  isdigit s && (length s =? 10)%nat.

(** The format as the specification words it: ten ASCII digits. *)
Definition ten_ascii_digits (s : pystr) : bool :=
  forallb ascii_digit s && (length s =? 10)%nat.

Definition phones_ok (r : Record_.t) : Prop :=
  Forall (fun p => ten_digits (Phone.value p) = true) (Record_.phones r).

Definition book_phones_ok (book : AddressBook.t) : Prop :=
  Forall phones_ok (Dict.values (AddressBook.data book)).

(** Every stored birthday is a text that [strptime] parses, as the
    [Birthday] constructor guarantees. *)
Definition birthday_ok (r : Record_.t) : Prop :=
  match Record_.birthday r with
  | Some b => exists dt, strptime_dmY (Birthday.value b) = inr dt
  | None => True
  end.

Definition book_birthdays_ok (book : AddressBook.t) : Prop :=
  Forall birthday_ok (Dict.values (AddressBook.data book)).

(** The words of a regular expression. *)
Fixpoint lang (r : re) (w : pystr) : Prop :=
  match r with
  | Chr p => exists c, w = [c] /\ p c = true
  | Cat r1 r2 => exists w1 w2, w = w1 ++ w2 /\ lang r1 w1 /\ lang r2 w2
  | Alt r1 r2 => lang r1 w \/ lang r2 w
  end.

Definition dot : N := 46%N.

(** The day, month and year texts that the parser takes. *)
Definition day_text (d : pystr) : bool :=
  match d with
  | [a; b] =>
      ((a =? 51) && in_range b (48, 49))%N
      || (in_range a (49, 50)%N && isdecimal_char b)
      || ((a =? 48) && in_range b (49, 57))%N
      || ((a =? 32) && in_range b (49, 57))%N
  | [a] => in_range a (49, 57)%N
  | _ => false
  end.

Definition month_text (m : pystr) : bool :=
  match m with
  | [a; b] =>
      ((a =? 49) && in_range b (48, 50))%N
      || ((a =? 48) && in_range b (49, 57))%N
  | [a] => in_range a (49, 57)%N
  | _ => false
  end.

Definition year_text (y : pystr) : bool :=
  match y with
  | [a; b; c; d] =>
      isdecimal_char a && isdecimal_char b && isdecimal_char c
      && isdecimal_char d
  | _ => false
  end.

Definition days_in_year (year : Z) : Z := if is_leap year then 366 else 365.

(** [date.__lt__]: the fields compared in order. *)
Definition date_lt (a b : Z * Z * Z) : Prop :=
  let '(y1, m1, d1) := a in
  let '(y2, m2, d2) := b in
  y1 < y2 \/ (y1 = y2 /\ (m1 < m2 \/ (m1 = m2 /\ d1 < d2))).

(** A date of the calendar, years 1 to 9999. *)
Definition real_date (year month day : Z) : bool :=
  (MINYEAR <=? year) && (year <=? MAXYEAR)
  && (1 <=? month) && (month <=? 12)
  && (1 <=? day) && (day <=? days_in_month year month).

(** The texts that [Birthday] accepts: day, dot, month, dot, year, naming a
    real date. *)
Definition accepted_date_text (s : pystr) : Prop :=
  exists d m y,
    s = d ++ dot :: m ++ dot :: y
    /\ day_text d = true /\ month_text m = true /\ year_text y = true
    /\ real_date (py_int y) (py_int m) (py_int d) = true.

(** The form DD.MM.YYYY as the specification words it: two digits, a dot,
    two digits, a dot, four digits. *)
Definition is_DD_MM_YYYY (s : pystr) : bool :=
  match s with
  | [d1; d2; p1; m1; m2; p2; y1; y2; y3; y4] =>
      ascii_digit d1 && ascii_digit d2 && (p1 =? dot)%N
      && ascii_digit m1 && ascii_digit m2 && (p2 =? dot)%N
      && ascii_digit y1 && ascii_digit y2 && ascii_digit y3 && ascii_digit y4
  | _ => false
  end.

(** The window of the birthday query for the instant [now]. *)
Definition window_start (now : datetime) : datetime :=
  mk_datetime (ordinal now + ((6 - weekday now) + 7)) (tod now).

Definition window_end (now : datetime) : datetime :=
  mk_datetime (ordinal (window_start now) + 6) (tod (window_start now)).

(** The stored text, read as the date it spells (its own year included),
    lies in the window, both ends included. *)
Definition in_window (now : datetime) (s : pystr) : bool :=
  match strptime_dmY s with
  | inr d => datetime_le (window_start now) d && datetime_le d (window_end now)
  | inl _ => false
  end.

Definition upcoming_of (now : datetime) (r : Record_.t)
  : option (pystr * pystr) :=
  match Record_.birthday r with
  | Some b =>
      if in_window now (Birthday.value b)
      then Some (Name.value (Record_.name r), Birthday.value b)
      else None
  | None => None
  end.

(** The answer of the query: the records in the order of the dict, those
    without a birthday in the window left out. *)
Definition upcoming_spec (now : datetime) (book : AddressBook.t)
  : list (pystr * pystr) :=
  omap (upcoming_of now) (Dict.values (AddressBook.data book)).

(** The instants for which the window exists as [datetime] values. *)
Definition window_representable (now : datetime) : Prop :=
  1 <= ordinal now /\ ordinal (window_end now) <= MAXORDINAL.

(** No character lies in a range of both tables. *)
Definition ranges_disjoint (rs1 rs2 : list (N * N)) : bool :=
  forallb
    (fun r1 => forallb (fun r2 => (snd r1 <? fst r2)%N || (snd r2 <? fst r1)%N) rs2)
    rs1.

(** The text has a last character, and it is no whitespace. *)
Definition ends_nonspace (s : pystr) : Prop :=
  exists s' c, s = s' ++ [c] /\ isspace_char c = false.

(** A text without a character that is not whitespace: an empty line, or
    one of blanks. *)
Definition blank (s : pystr) : Prop :=
  Forall (fun c => isspace_char c = true) s.

(** A word: not empty and free of whitespace. *)
Definition word (s : pystr) : Prop :=
  s <> [] /\ Forall (fun c => isspace_char c = false) s.

(** The keys of the book are distinct, and every record is stored under
    its own name. *)
Definition book_keys_ok (book : AddressBook.t) : Prop :=
  NoDup (Dict.keys (AddressBook.data book))
  /\ Forall (fun kv => fst kv = Name.value (Record_.name (snd kv)))
       (AddressBook.data book).

(** ** The birthday query in days

    The answer of the query told without the comparison of [datetime] values
    and without the parser: the text of a birthday is cut at its dots and
    read as the day it spells, year as written; the window is a range of
    days. *)







(** ** Sample inputs *)




(** Ten times the character SUPERSCRIPT TWO (U+00B2). *)
Definition superscript_twos : pystr := replicate 10 178%N.

(** A book whose only record has no phone. *)
Definition book_with_bob : AddressBook.t :=
  AddressBook.mk [(str "bob", Record_.mk (Name.mk (str "bob")) [] None)].

Definition record_with_birthday : Record_.t :=
  Record_.mk (Name.mk (str "jane")) [Phone.mk (str "1234567890")]
    (Some (Birthday.mk (str "05.05.1990"))).

Definition record_with_two_phones : Record_.t :=
  Record_.mk (Name.mk (str "ann"))
    [Phone.mk (str "1234567890"); Phone.mk (str "0987654321")] None.

(** Tuesday 2026-11-03, one millisecond after midnight. *)
Definition sample_now : datetime := mk_datetime 739923 1000.

(** Three contacts: a birthday in the far past, one inside the window of
    [sample_now], one on the day after it. *)
Definition sample_book : AddressBook.t :=
  AddressBook.mk
    [(str "jane", record_with_birthday);
     (str "ann",
      Record_.mk (Name.mk (str "ann")) [Phone.mk (str "1234567890")]
        (Some (Birthday.mk (str "16.11.2026"))));
     (str "bob",
      Record_.mk (Name.mk (str "bob")) []
        (Some (Birthday.mk (str "22.11.2026"))))].

Definition sample_ops : list op :=
  [OpAddContact [str "jane"; str "1234567890"];
   OpAddPhone (str "jane") (str "12ab");
   OpAddPhone (str "jane") (str "0987654321");
   OpEditPhone (str "jane") (str "1234567890") (str "1");
   OpChangeContact [str "jane"; str "5555555555"];
   OpChangeContact [str "jane"; str "x"];
   OpRemovePhone (str "jane") (str "0987654321")].

(** A date written with a one-digit day and a one-digit month. *)
Definition one_digit_date : pystr := str "5.5.1990".

(** Two operations that end with a phone of ten superscript twos. *)
Definition superscript_ops : list op :=
  [OpAddContact [str "jane"; str "1234567890"];
   OpChangeContact [str "jane"; superscript_twos]].

(** * Properties *)

Ltac unfold_m :=
  unfold bind, ret, raise, get, put, lift, try_except, except_ValueError_str
    in *.

(** *** Phone construction *)

Lemma Phone_init_ten_digits (s : pystr) :
  Phone.init s =
    if ten_digits s then inr (Phone.mk s)
    else inl (ValueError Phone.invalid_msg).
Proof.
  unfold Phone.init, ten_digits.
  destruct (isdigit s), (length s =? 10)%nat; reflexivity.
Qed.

Lemma in_ranges_false_above (bound c : N) (rs : list (N * N)) :
  (c < bound)%N ->
  forallb (fun r => (bound <=? fst r)%N) rs = true ->
  in_ranges rs c = false.
Proof.
  intros Hc. unfold in_ranges. induction rs as [|r rs IH]; simpl; [done|].
  intros [Hr Hrs]%andb_prop. rewrite (IH Hrs), orb_false_r.
  unfold in_range. apply andb_false_intro1.
  apply N.leb_le in Hr. apply N.leb_gt. lia.
Qed.

Lemma isdigit_char_ascii (c : N) :
  (c < 128)%N -> isdigit_char c = ascii_digit c.
Proof.
  intros Hc. unfold isdigit_char, isdecimal_char.
  rewrite (in_ranges_false_above 128 c digit_only_ranges Hc eq_refl).
  rewrite orb_false_r.
  change decimal_ranges with ((48, 57)%N :: tl decimal_ranges).
  unfold in_ranges. cbn [existsb].
  fold (in_ranges (tl decimal_ranges) c).
  rewrite (in_ranges_false_above 128 c (tl decimal_ranges) Hc eq_refl).
  rewrite orb_false_r. reflexivity.
Qed.

Lemma forallb_isdigit_ascii (s : pystr) :
  Forall (fun c => (c < 128)%N) s ->
  forallb isdigit_char s = forallb ascii_digit s.
Proof.
  induction 1 as [|c s Hc _ IH]; simpl; [done|].
  by rewrite IH, isdigit_char_ascii.
Qed.

Lemma ten_digits_ascii (s : pystr) :
  Forall (fun c => (c < 128)%N) s ->
  ten_digits s = ten_ascii_digits s.
Proof.
  intros Hs. unfold ten_digits, ten_ascii_digits, isdigit.
  rewrite (forallb_isdigit_ascii s Hs).
  destruct s; [done|]. reflexivity.
Qed.

(** C3 (as the code has it).  [Phone(s)] succeeds exactly when [s] has ten
    characters that are all digits for [str.isdigit]; the phone then renders
    as [s]; otherwise the constructor raises [ValueError] with the format
    message.  On strings of ASCII characters these are exactly the strings of
    ten ASCII digits; beyond ASCII, [str.isdigit] also takes other Unicode
    digits. *)
Theorem Phone_init_spec (s : pystr) :
  ((exists p, Phone.init s = inr p) <-> ten_digits s = true)
  /\ (forall p, Phone.init s = inr p -> Phone.to_str p = s)
  /\ (ten_digits s = false ->
      Phone.init s = inl (ValueError Phone.invalid_msg))
  /\ (Forall (fun c => (c < 128)%N) s ->
      ten_digits s = ten_ascii_digits s).
Proof.
  rewrite Phone_init_ten_digits.
  split_and!.
  - destruct (ten_digits s); split; try done.
    + by exists (Phone.mk s).
    + by intros [p ?].
  - destruct (ten_digits s); [|done]. by intros p [= <-].
  - by intros ->.
  - apply ten_digits_ascii.
Qed.

(** C3 does not hold with "ASCII digits": ten superscript twos make a
    [Phone]. *)
Lemma Phone_init_superscript_twos :
  ~ ((exists p, Phone.init superscript_twos = inr p)
     <-> ten_ascii_digits superscript_twos = true).
Proof.
  intros [H _].
  assert (Hf : ten_ascii_digits superscript_twos = false) by reflexivity.
  rewrite H in Hf; [done|].
  exists (Phone.mk superscript_twos). reflexivity.
Qed.

(** *** Record *)

(** C5.  On a record whose birthday is set, [add_birthday] with any argument
    raises [ValueError("Birthday already set.")] and leaves the record, its
    birthday included, as it was. *)
Theorem add_birthday_already_set
    (r : Record_.t) (b : Birthday.t) (date : pystr) :
  Record_.birthday r = Some b ->
  Record_.add_birthday date r
  = (inl (ValueError (str "Birthday already set.")), r).
Proof.
  intros Hb. unfold Record_.add_birthday. unfold_m. by rewrite Hb.
Qed.

Lemma add_birthday_already_set_witness :
  Record_.birthday record_with_birthday
  = Some (Birthday.mk (str "05.05.1990"))
  /\ Record_.add_birthday (str "01.01.2000") record_with_birthday
     = (inl (ValueError (str "Birthday already set.")), record_with_birthday).
Proof.
  split; [reflexivity|].
  apply (add_birthday_already_set record_with_birthday
           (Birthday.mk (str "05.05.1990")) (str "01.01.2000")).
  reflexivity.
Defined.

Lemma first_with_value_present (old : pystr) (ps : list Phone.t) :
  (exists p, p ∈ ps /\ Phone.value p = old) ->
  exists i p, Record_.first_with_value old ps = Some (i, p)
              /\ ps !! i = Some p /\ Phone.value p = old.
Proof.
  intros (p & Hin & Hv).
  destruct (list_find_elem_of (fun q => Phone.value q = old) ps p Hin Hv)
    as [[i q] Hq].
  exists i, q. split; [exact Hq|].
  apply list_find_Some in Hq. tauto.
Qed.

(** C6 (as the code has it).  When some phone of the record has the value
    [old_phone] and the [Phone] constructor rejects [new_phone] (it is not a
    text of ten characters that are all digits for [str.isdigit]; among the
    texts of ASCII characters: it is not a text of ten ASCII digits),
    [edit_phone] returns the message of the failed validation and leaves the
    record as it was: the phone list is the same list, the old phone at its
    place. *)
Theorem edit_phone_invalid_new (r : Record_.t) (old_phone new_phone : pystr) :
  (exists p, p ∈ Record_.phones r /\ Phone.value p = old_phone) ->
  ten_digits new_phone = false
  \/ (Forall (fun c => (c < 128)%N) new_phone
      /\ ten_ascii_digits new_phone = false) ->
  Record_.edit_phone old_phone new_phone r = (inr Phone.invalid_msg, r).
Proof.
  intros Hold Hnew.
  assert (Hrej : ten_digits new_phone = false).
  { destruct Hnew as [H|[Hascii H]]; [exact H|].
    by rewrite (ten_digits_ascii new_phone Hascii). }
  destruct (first_with_value_present _ _ Hold) as (i & p & Hf & _).
  unfold Record_.edit_phone. unfold_m.
  rewrite Hf, Phone_init_ten_digits, Hrej. reflexivity.
Qed.

Lemma edit_phone_invalid_new_witness :
  (exists p, p ∈ Record_.phones record_with_two_phones
             /\ Phone.value p = str "0987654321")
  /\ (ten_digits (str "12345") = false
      \/ (Forall (fun c => (c < 128)%N) (str "12345")
          /\ ten_ascii_digits (str "12345") = false))
  /\ Record_.edit_phone (str "0987654321") (str "12345")
       record_with_two_phones
     = (inr Phone.invalid_msg, record_with_two_phones).
Proof.
  assert (H : exists p, p ∈ Record_.phones record_with_two_phones
                        /\ Phone.value p = str "0987654321").
  { exists (Phone.mk (str "0987654321")). split; [|reflexivity].
    right. left. }
  assert (Hn : ten_digits (str "12345") = false
               \/ (Forall (fun c => (c < 128)%N) (str "12345")
                   /\ ten_ascii_digits (str "12345") = false)).
  { left. reflexivity. }
  split; [exact H|]. split; [exact Hn|].
  exact (edit_phone_invalid_new record_with_two_phones
           (str "0987654321") (str "12345") H Hn).
Defined.

(** C6 does not hold with "ten ASCII digits" for the valid phones: ten
    superscript twos are no such text, and [edit_phone] puts them in the
    place of the old phone and says so. *)
Lemma edit_phone_superscript_twos :
  (exists p, p ∈ Record_.phones record_with_two_phones
             /\ Phone.value p = str "0987654321")
  /\ ten_ascii_digits superscript_twos = false
  /\ Record_.edit_phone (str "0987654321") superscript_twos
       record_with_two_phones
     = (inr (str "Phone 0987654321 edited to " ++ superscript_twos ++ str "."),
        Record_.set_phones
          [Phone.mk (str "1234567890"); Phone.mk superscript_twos]
          record_with_two_phones)
  /\ Record_.edit_phone (str "0987654321") superscript_twos
       record_with_two_phones
     <> (inr Phone.invalid_msg, record_with_two_phones).
Proof.
  split_and!.
  - exists (Phone.mk (str "0987654321")). split; [|reflexivity].
    right. left.
  - reflexivity.
  - reflexivity.
  - by vm_compute.
Qed.

(** *** Dictionaries *)

Section DictFacts.
Context {V : Type}.
Implicit Types (d : Dict.t V) (k : pystr) (v : V).

Lemma dict_get_set_eq k v d : Dict.get k (Dict.set k v d) = Some v.
Proof.
  induction d as [|[k' v'] d IH]; simpl.
  - by rewrite decide_True.
  - destruct (decide (k' = k)) as [->|Hne]; simpl.
    + by rewrite decide_True.
    + by rewrite decide_False.
Qed.

Lemma dict_get_set_ne k k' v d :
  k <> k' -> Dict.get k' (Dict.set k v d) = Dict.get k' d.
Proof.
  intros Hne. induction d as [|[k0 v0] d IH]; simpl.
  - by rewrite decide_False.
  - destruct (decide (k0 = k)) as [->|Hne0]; simpl.
    + by rewrite !decide_False.
    + destruct (decide (k0 = k')); [done|]. exact IH.
Qed.

Lemma dict_set_same k v d : Dict.get k d = Some v -> Dict.set k v d = d.
Proof.
  induction d as [|[k' v'] d IH]; simpl; [done|].
  destruct (decide (k' = k)) as [->|Hne].
  - by intros [= ->].
  - intros H. by rewrite IH.
Qed.

Lemma dict_keys_set_present k v d :
  is_Some (Dict.get k d) -> Dict.keys (Dict.set k v d) = Dict.keys d.
Proof.
  unfold Dict.keys.
  induction d as [|[k' v'] d IH]; csimpl; [by intros [? ?]|].
  destruct (decide (k' = k)) as [->|Hne]; csimpl; [done|].
  intros H. f_equal. by apply IH.
Qed.

Lemma dict_keys_set_absent k v d :
  Dict.get k d = None -> Dict.keys (Dict.set k v d) = Dict.keys d ++ [k].
Proof.
  unfold Dict.keys.
  induction d as [|[k' v'] d IH]; csimpl; [done|].
  destruct (decide (k' = k)) as [->|Hne]; csimpl; [done|].
  intros H. f_equal. by apply IH.
Qed.

Lemma dict_get_None_keys k d : Dict.get k d = None <-> k ∉ Dict.keys d.
Proof.
  unfold Dict.keys.
  induction d as [|[k' v'] d IH]; csimpl.
  - split; [intros _; apply not_elem_of_nil | done].
  - rewrite not_elem_of_cons.
    destruct (decide (k' = k)) as [->|Hne].
    + split; [done|]. intros [? _]. done.
    + rewrite IH. split; [by intros ?|]. by intros [_ ?].
Qed.

Lemma dict_set_NoDup k v d :
  NoDup (Dict.keys d) -> NoDup (Dict.keys (Dict.set k v d)).
Proof.
  intros Hd. destruct (Dict.get k d) as [v'|] eqn:Hg.
  - rewrite (dict_keys_set_present k v d); [done|by eexists].
  - rewrite (dict_keys_set_absent k v d) by done.
    apply list.NoDup_app. split_and!; [done| |apply NoDup_singleton].
    intros x Hx ->%list_elem_of_singleton.
    by apply dict_get_None_keys in Hg.
Qed.

(** What [Dict.set] leaves in [values]: every old value or the new one. *)
Lemma dict_values_set (P : V -> Prop) k v d :
  P v -> Forall P (Dict.values d) -> Forall P (Dict.values (Dict.set k v d)).
Proof.
  intros Hv. unfold Dict.values.
  induction d as [|[k' v'] d IH]; csimpl.
  - intros _. by constructor.
  - intros [Hv' Hd]%Forall_cons_1.
    destruct (decide (k' = k)); csimpl; constructor; auto.
Qed.

Lemma dict_values_del (P : V -> Prop) k d :
  Forall P (Dict.values d) -> Forall P (Dict.values (Dict.del k d)).
Proof.
  unfold Dict.values.
  induction d as [|[k' v'] d IH]; csimpl; [done|].
  intros [Hv' Hd]%Forall_cons_1.
  destruct (decide (k' = k)); csimpl; [done|]. constructor; auto.
Qed.

Lemma dict_get_values (P : V -> Prop) k v d :
  Forall P (Dict.values d) -> Dict.get k d = Some v -> P v.
Proof.
  unfold Dict.values.
  induction d as [|[k' v'] d IH]; csimpl; [done|].
  intros [Hv' Hd]%Forall_cons_1.
  destruct (decide (k' = k)); [by intros [= <-]|]. by apply IH.
Qed.
End DictFacts.

(** *** AddressBook *)

(** C7.  [add_record] never fails.  After it, [find] with the name of the
    record returns that record.  Adding then a second record of the same
    name replaces the first where it stands: [find] returns the second, and
    the keys of the dict are as before. *)
Theorem add_record_find (book : AddressBook.t) (r1 : Record_.t)
    (phones2 : list Phone.t) (birthday2 : option Birthday.t) :
  let r2 := Record_.mk (Record_.name r1) phones2 birthday2 in
  let key := Name.value (Record_.name r1) in
  let book1 := snd (AddressBook.add_record r1 book) in
  let book2 := snd (AddressBook.add_record r2 book1) in
  fst (AddressBook.add_record r1 book) = inr tt
  /\ AddressBook.find key book1 = (inr (Some r1), book1)
  /\ fst (AddressBook.add_record r2 book1) = inr tt
  /\ AddressBook.find key book2 = (inr (Some r2), book2)
  /\ Dict.keys (AddressBook.data book2) = Dict.keys (AddressBook.data book1).
Proof.
  intros r2 key book1 book2. subst r2 key book1 book2.
  unfold AddressBook.find, AddressBook.add_record. unfold_m. simpl.
  rewrite !dict_get_set_eq. split_and!; try done.
  apply dict_keys_set_present. rewrite dict_get_set_eq. by eexists.
Qed.

(** The keys of a book stay distinct. *)
Lemma add_record_NoDup (book : AddressBook.t) (record : Record_.t) :
  NoDup (Dict.keys (AddressBook.data book)) ->
  NoDup (Dict.keys (AddressBook.data (snd (AddressBook.add_record record book)))).
Proof.
  intros H. unfold AddressBook.add_record. unfold_m. simpl.
  by apply dict_set_NoDup.
Qed.

(** *** Handlers *)

Lemma Record_init_malformed_phone (name phone : pystr) :
  ten_digits phone = false ->
  Record_.init name (Some phone) None
  = inr (Record_.mk (Name.mk name) [] None).
Proof.
  intros Hp. unfold Record_.init, Record_.add_phone. unfold_m.
  destruct (str_truthy phone); [|done].
  by rewrite Phone_init_ten_digits, Hp.
Qed.

(** C2 (what the code does).  With a phone that is not in the phone format,
    the add handler still answers "Contact added." and stores a record
    without phones: [Record.__init__] drops the message that [add_phone]
    returns. *)
Theorem add_contact_malformed_phone
    (name phone : pystr) (book : AddressBook.t) :
  ten_digits phone = false ->
  add_contact [name; phone] book
  = (inr (str "Contact added."),
     AddressBook.mk
       (Dict.set name (Record_.mk (Name.mk name) [] None)
          (AddressBook.data book))).
Proof.
  intros Hp. unfold add_contact, add_contact_func, input_error.
  unfold AddressBook.add_record. unfold_m.
  by rewrite (Record_init_malformed_phone name phone Hp).
Qed.

Lemma add_contact_malformed_phone_witness :
  ten_digits (str "123") = false
  /\ add_contact [str "jane"; str "123"] AddressBook.init
     = (inr (str "Contact added."),
        AddressBook.mk
          [(str "jane", Record_.mk (Name.mk (str "jane")) [] None)]).
Proof.
  split; [reflexivity|].
  apply (add_contact_malformed_phone (str "jane") (str "123")
           AddressBook.init).
  reflexivity.
Defined.

(** C9 (as the code has it).  With an argument list whose length is not 1,
    the unpacking in [show_birthday] raises [ValueError]; the decorator
    returns the message of that error, which is not "Invalid command
    format.", and the book is untouched. *)
Theorem show_birthday_wrong_arg_count
    (args : list pystr) (book : AddressBook.t) :
  length args <> 1%nat ->
  exists msg,
    show_birthday_func args book = (inl (ValueError msg), book)
    /\ show_birthday args book = (inr msg, book)
    /\ msg <> invalid_command_msg.
Proof.
  intros Hlen. unfold show_birthday, input_error, show_birthday_func, unpack1.
  destruct args as [|a [|b args]]; [|done|]; unfold_m;
    eexists; split_and!; try reflexivity; by vm_compute.
Qed.

Lemma show_birthday_wrong_arg_count_witness :
  length ([] : list pystr) <> 1%nat
  /\ exists msg,
       show_birthday_func [] AddressBook.init
       = (inl (ValueError msg), AddressBook.init)
       /\ show_birthday [] AddressBook.init = (inr msg, AddressBook.init)
       /\ msg <> invalid_command_msg.
Proof.
  assert (H : length ([] : list pystr) <> 1%nat) by (simpl; lia).
  split; [exact H|].
  exact (show_birthday_wrong_arg_count [] AddressBook.init H).
Defined.

(** C9 does not hold with [IndexError]: without arguments the handler
    raises another exception and the decorator gives another message. *)
Lemma show_birthday_no_args_not_IndexError :
  show_birthday_func [] AddressBook.init <> (inl IndexError, AddressBook.init)
  /\ show_birthday [] AddressBook.init
     <> (inr invalid_command_msg, AddressBook.init).
Proof. split; by vm_compute. Qed.

(** C10 (as the code has it).  For a record of the book without phones, the
    change handler leaves the book as it was; it answers "Invalid command
    format." when the new phone is in the phone format, and the message of
    the failed validation when it is not, the phone being built before the
    list is indexed. *)
Theorem change_contact_no_phones
    (book : AddressBook.t) (name new_phone : pystr) (r : Record_.t) :
  Dict.get name (AddressBook.data book) = Some r ->
  Record_.phones r = [] ->
  change_contact [name; new_phone] book
  = (inr (if ten_digits new_phone then invalid_command_msg
          else Phone.invalid_msg),
     book).
Proof.
  intros Hget Hph. destruct book as [d]; simpl in Hget.
  unfold change_contact, input_error, change_contact_func.
  unfold AddressBook.find, AddressBook.on_contact, phones_setitem.
  unfold_m. simpl. rewrite Hget, Phone_init_ten_digits.
  destruct (ten_digits new_phone); simpl; [|done].
  rewrite Hph. simpl. by rewrite (dict_set_same name r d Hget).
Qed.

Lemma change_contact_no_phones_witness :
  Dict.get (str "bob") (AddressBook.data book_with_bob)
  = Some (Record_.mk (Name.mk (str "bob")) [] None)
  /\ change_contact [str "bob"; str "1111111111"] book_with_bob
     = (inr invalid_command_msg, book_with_bob).
Proof.
  split; [reflexivity|].
  apply (change_contact_no_phones book_with_bob (str "bob")
           (str "1111111111") (Record_.mk (Name.mk (str "bob")) [] None));
    reflexivity.
Defined.

(** C10 does not hold for every new phone: a malformed one gets the
    validation message, not "Invalid command format.". *)
Lemma change_contact_no_phones_invalid_value :
  Dict.get (str "bob") (AddressBook.data book_with_bob)
  = Some (Record_.mk (Name.mk (str "bob")) [] None)
  /\ change_contact [str "bob"; str "abc"] book_with_bob
     <> (inr invalid_command_msg, book_with_bob).
Proof. split; by vm_compute. Qed.

(** *** The phone format is an invariant *)

Lemma add_phone_phones_ok (phone : pystr) (r : Record_.t) :
  phones_ok r -> phones_ok (snd (Record_.add_phone phone r)).
Proof.
  intros Hr. unfold Record_.add_phone. unfold_m.
  rewrite Phone_init_ten_digits.
  destruct (ten_digits phone) eqn:Hp; simpl; [|done].
  unfold phones_ok. simpl. apply Forall_app. split; [done|].
  by constructor.
Qed.

Lemma edit_phone_phones_ok (old_phone new_phone : pystr) (r : Record_.t) :
  phones_ok r -> phones_ok (snd (Record_.edit_phone old_phone new_phone r)).
Proof.
  intros Hr. unfold Record_.edit_phone. unfold_m.
  destruct (Record_.first_with_value old_phone (Record_.phones r))
    as [[i p]|]; [|done].
  rewrite Phone_init_ten_digits.
  destruct (ten_digits new_phone) eqn:Hp; simpl; [|done].
  unfold phones_ok. simpl. by apply Forall_insert.
Qed.

Lemma remove_phone_phones_ok (phone : pystr) (r : Record_.t) :
  phones_ok r -> phones_ok (snd (Record_.remove_phone phone r)).
Proof.
  intros Hr. unfold Record_.remove_phone. unfold_m.
  destruct (Record_.first_with_value phone (Record_.phones r))
    as [[i p]|]; [|done].
  unfold phones_ok. simpl. by apply Forall_delete.
Qed.

Lemma phones_setitem_phones_ok (i : nat) (value : Phone.t) (r : Record_.t) :
  ten_digits (Phone.value value) = true ->
  phones_ok r -> phones_ok (snd (phones_setitem i value r)).
Proof.
  intros Hv Hr. unfold phones_setitem. unfold_m.
  destruct (decide (i < length (Record_.phones r))%nat); [|done].
  unfold phones_ok. simpl. by apply Forall_insert.
Qed.

Lemma add_birthday_phones (date : pystr) (r : Record_.t) :
  Record_.phones (snd (Record_.add_birthday date r)) = Record_.phones r.
Proof.
  unfold Record_.add_birthday. unfold_m.
  destruct (Record_.birthday r); [done|].
  by destruct (Birthday.init date).
Qed.

Lemma add_birthday_phones_ok (date : pystr) (r : Record_.t) :
  phones_ok r -> phones_ok (snd (Record_.add_birthday date r)).
Proof. unfold phones_ok. by rewrite add_birthday_phones. Qed.

Lemma Record_init_phones_ok (name : pystr) (phone birthday : option pystr)
    (r : Record_.t) :
  Record_.init name phone birthday = inr r -> phones_ok r.
Proof.
  unfold Record_.init. unfold bind at 1.
  set (r0 := Record_.mk (Name.init name) [] None).
  assert (H0 : phones_ok r0) by constructor.
  set (m1 := match phone with Some _ => _ | None => _ end).
  assert (H1 : phones_ok (snd (m1 r0))).
  { subst m1. destruct phone as [ph|]; [|done].
    destruct (str_truthy ph); [|done].
    pose proof (add_phone_phones_ok ph r0 H0) as H.
    unfold bind at 1. by destruct (Record_.add_phone ph r0) as [[?|?] ?]. }
  destruct (m1 r0) as [[e|[]] r1]; [done|]. simpl in H1.
  set (m2 := match birthday with Some _ => _ | None => _ end).
  assert (H2 : phones_ok (snd (m2 r1))).
  { subst m2. destruct birthday as [bd|]; [|done].
    destruct (str_truthy bd); [|done]. by apply add_birthday_phones_ok. }
  destruct (m2 r1) as [[e|[]] r2]; [done|]. by intros [= <-].
Qed.

(** A method that keeps a property of the record it runs on keeps that
    property of every record of the book. *)
Lemma on_contact_values {A} (P : Record_.t -> Prop) (key : pystr)
    (c : Record_.t) (method : M Record_.t A) (book : AddressBook.t) :
  P (snd (method c)) ->
  Forall P (Dict.values (AddressBook.data book)) ->
  Forall P
    (Dict.values (AddressBook.data (snd (AddressBook.on_contact key c method book)))).
Proof.
  intros Hm Hb. unfold AddressBook.on_contact.
  destruct (method c) as [res c']. simpl in *.
  by apply dict_values_set.
Qed.

Lemma call_method_values {A} (P : Record_.t -> Prop) (name : pystr)
    (method : M Record_.t A) (book : AddressBook.t) :
  (forall c, P c -> P (snd (method c))) ->
  Forall P (Dict.values (AddressBook.data book)) ->
  Forall P (Dict.values (AddressBook.data (snd (call_method name method book)))).
Proof.
  intros Hm Hb. unfold call_method, AddressBook.find.
  unfold bind at 1 2. unfold get, ret.
  destruct (Dict.get name (AddressBook.data book)) as [c|] eqn:Hc; [|done].
  pose proof (on_contact_values P name c method book
                (Hm c (dict_get_values P _ _ _ Hb Hc)) Hb) as H.
  unfold bind.
  by destruct (AddressBook.on_contact name c method book) as [[?|?] ?].
Qed.

Lemma add_record_values (P : Record_.t -> Prop) (record : Record_.t)
    (book : AddressBook.t) :
  P record ->
  Forall P (Dict.values (AddressBook.data book)) ->
  Forall P
    (Dict.values (AddressBook.data (snd (AddressBook.add_record record book)))).
Proof.
  intros Hr Hb. unfold AddressBook.add_record. unfold_m. simpl.
  by apply dict_values_set.
Qed.

Lemma delete_values (P : Record_.t -> Prop) (name : pystr)
    (book : AddressBook.t) :
  Forall P (Dict.values (AddressBook.data book)) ->
  Forall P (Dict.values (AddressBook.data (snd (AddressBook.delete name book)))).
Proof.
  intros Hb. unfold AddressBook.delete. unfold_m.
  destruct (Dict.contains name (AddressBook.data book)); simpl; [|done].
  by apply dict_values_del.
Qed.

(** The decorator does not touch the book. *)
Lemma input_error_state {S} (func : M S pystr) (s : S) :
  snd (input_error func s) = snd (func s).
Proof.
  unfold input_error, try_except.
  destruct (func s) as [[[]|] s']; reflexivity.
Qed.

Lemma bind_ret_tt_state {S A} (m : M S A) (s : S) :
  snd ((m ;;; ret tt) s) = snd (m s).
Proof. unfold bind, ret. by destruct (m s) as [[?|?] ?]. Qed.

Lemma add_contact_values (P : Record_.t -> Prop) (args : list pystr)
    (book : AddressBook.t) :
  (forall name phone r, Record_.init name phone None = inr r -> P r) ->
  Forall P (Dict.values (AddressBook.data book)) ->
  Forall P (Dict.values (AddressBook.data (snd (add_contact args book)))).
Proof.
  intros Hinit Hb. unfold add_contact. rewrite input_error_state.
  unfold add_contact_func.
  destruct args as [|name [|phone [|? ?]]]; try done.
  unfold bind at 1. unfold lift.
  destruct (Record_.init name (Some phone) None) as [e|r] eqn:Hr; [done|].
  pose proof (add_record_values P r book (Hinit _ _ _ Hr) Hb) as H.
  unfold bind.
  by destruct (AddressBook.add_record r book) as [[?|?] ?].
Qed.

Lemma change_contact_values (P : Record_.t -> Prop) (args : list pystr)
    (book : AddressBook.t) :
  (forall value c, ten_digits (Phone.value value) = true ->
                   P c -> P (snd (phones_setitem 0 value c))) ->
  Forall P (Dict.values (AddressBook.data book)) ->
  Forall P (Dict.values (AddressBook.data (snd (change_contact args book)))).
Proof.
  intros Hset Hb. unfold change_contact. rewrite input_error_state.
  unfold change_contact_func.
  destruct args as [|name [|new_phone [|? ?]]]; try done.
  unfold AddressBook.find. unfold bind at 1 2. unfold get, ret.
  destruct (Dict.get name (AddressBook.data book)) as [c|] eqn:Hc; [|done].
  unfold bind at 1. unfold lift. rewrite Phone_init_ten_digits.
  destruct (ten_digits new_phone) eqn:Hp; [|done].
  pose proof (on_contact_values P name c (phones_setitem 0 (Phone.mk new_phone))
                book (Hset (Phone.mk new_phone) c Hp
                        (dict_get_values P _ _ _ Hb Hc)) Hb) as H.
  unfold bind.
  by destruct (AddressBook.on_contact name c _ book) as [[?|?] ?].
Qed.

Lemma add_birthday_values (P : Record_.t -> Prop) (args : list pystr)
    (book : AddressBook.t) :
  (forall date c, P c -> P (snd (Record_.add_birthday date c))) ->
  Forall P (Dict.values (AddressBook.data book)) ->
  Forall P (Dict.values (AddressBook.data (snd (add_birthday args book)))).
Proof.
  intros Hadd Hb. unfold add_birthday. rewrite input_error_state.
  unfold add_birthday_func.
  destruct args as [|name [|date [|? ?]]]; try done.
  unfold AddressBook.find. unfold bind at 1 2. unfold get, ret.
  destruct (Dict.get name (AddressBook.data book)) as [c|] eqn:Hc; [|done].
  pose proof (on_contact_values P name c (Record_.add_birthday date)
                book (Hadd _ c (dict_get_values P _ _ _ Hb Hc)) Hb) as H.
  unfold try_except, bind, except_ValueError_str, ret.
  by destruct (AddressBook.on_contact name c _ book) as [[[]|?] ?].
Qed.

(** Every operation keeps a property of all records that the constructor
    establishes and the methods keep. *)
Lemma run_op_values (P : Record_.t -> Prop) (o : op) (book : AddressBook.t) :
  (forall name phone birthday r,
     Record_.init name phone birthday = inr r -> P r) ->
  (forall phone c, P c -> P (snd (Record_.add_phone phone c))) ->
  (forall old new c, P c -> P (snd (Record_.edit_phone old new c))) ->
  (forall phone c, P c -> P (snd (Record_.remove_phone phone c))) ->
  (forall value c, ten_digits (Phone.value value) = true ->
                   P c -> P (snd (phones_setitem 0 value c))) ->
  (forall date c, P c -> P (snd (Record_.add_birthday date c))) ->
  Forall P (Dict.values (AddressBook.data book)) ->
  Forall P (Dict.values (AddressBook.data (snd (run_op o book)))).
Proof.
  intros Hinit Hadd Hedit Hrem Hset Hbd Hb.
  destruct o as [args|args|args|name phone birthday|name|name phone
                 |name old new|name phone]; simpl.
  - rewrite bind_ret_tt_state. apply add_contact_values; eauto.
  - rewrite bind_ret_tt_state. apply change_contact_values; eauto.
  - rewrite bind_ret_tt_state. apply add_birthday_values; eauto.
  - unfold bind, lift.
    destruct (Record_.init name phone birthday) as [e|r] eqn:Hr; [done|].
    apply add_record_values; eauto.
  - rewrite bind_ret_tt_state. by apply delete_values.
  - apply call_method_values; eauto.
  - apply call_method_values; eauto.
  - apply call_method_values; eauto.
Qed.

Lemma run_ops_values (P : Record_.t -> Prop) (ops : list op)
    (book : AddressBook.t) :
  (forall o b, Forall P (Dict.values (AddressBook.data b)) ->
               Forall P (Dict.values (AddressBook.data (snd (run_op o b))))) ->
  Forall P (Dict.values (AddressBook.data book)) ->
  Forall P (Dict.values (AddressBook.data (run_ops ops book))).
Proof.
  intros Hstep. unfold run_ops. revert book.
  induction ops as [|o ops IH]; intros book Hb; simpl; [done|].
  apply IH. by apply Hstep.
Qed.

Lemma run_op_phones_ok (o : op) (book : AddressBook.t) :
  book_phones_ok book -> book_phones_ok (snd (run_op o book)).
Proof.
  unfold book_phones_ok. apply run_op_values.
  - apply Record_init_phones_ok.
  - intros. by apply add_phone_phones_ok.
  - intros. by apply edit_phone_phones_ok.
  - intros. by apply remove_phone_phones_ok.
  - intros. by apply phones_setitem_phones_ok.
  - intros. by apply add_birthday_phones_ok.
Qed.

(** *** The matcher finds the words of the expression *)

Lemma matches_lang (r : re) (s w t : pystr) :
  (w, t) ∈ matches r s <-> s = w ++ t /\ lang r w.
Proof.
  revert s w t. induction r as [p|r1 IH1 r2 IH2|r1 IH1 r2 IH2];
    intros s w t; simpl.
  - destruct s as [|c s].
    + split; [by intros ?%elem_of_nil|].
      intros [Hs (c & Hw & _)]. by subst w.
    + destruct (p c) eqn:Hp.
      * rewrite list_elem_of_singleton. split.
        -- intros [= Hw Ht]. subst. eauto.
        -- intros [Hs (c' & Hw & _)]. subst w. by injection Hs as -> ->.
      * split; [by intros ?%elem_of_nil|].
        intros [Hs (c' & Hw & Hc)]. subst w. injection Hs as -> ->.
        congruence.
  - rewrite list_elem_of_bind. split.
    + intros ([w1 t1] & Hin & H1). apply IH1 in H1 as [Hs H1]. subst s.
      apply list_elem_of_bind in Hin as ([w2 t2] & Hin & H2).
      apply IH2 in H2 as [Ht H2]. simpl in *. subst t1.
      apply list_elem_of_singleton in Hin. injection Hin as Hw Ht. subst.
      split; [by rewrite app_assoc|]. eauto.
    + intros [Hs (w1 & w2 & Hw & H1 & H2)]. subst.
      exists (w1, w2 ++ t). split.
      * apply list_elem_of_bind. exists (w2, t). simpl.
        split; [by apply list_elem_of_singleton|]. by apply IH2.
      * apply IH1. by rewrite app_assoc.
  - rewrite elem_of_app, IH1, IH2. tauto.
Qed.

Ltac destruct_lang :=
  repeat match goal with
    | H : _ \/ _ |- _ => destruct H as [H|H]
    | H : exists _, _ |- _ => destruct H as [? H]
    | H : _ /\ _ |- _ => destruct H as [? H]
    | H : (_ =? _)%N = true |- _ => apply N.eqb_eq in H
    end; subst.

Ltac close_text :=
  cbn [app]; unfold day_text, month_text, year_text;
  repeat match goal with H : _ = true |- _ => rewrite H end;
  rewrite ?N.eqb_refl, ?andb_true_r, ?orb_true_r; reflexivity.

Ltac split_text :=
  repeat match goal with
    | H : (_ || _) = true |- _ => apply orb_true_iff in H as [H|H]
    | H : (_ && _) = true |- _ =>
        let H' := fresh in apply andb_true_iff in H as [H' H]
    | H : (_ =? _)%N = true |- _ => apply N.eqb_eq in H
    end; subst.

Lemma lang_Chr (p : N -> bool) (c : N) : p c = true -> lang (Chr p) [c].
Proof. intros H. exists c. done. Qed.

Lemma lang_lit (c : N) : lang (lit c) [c].
Proof. apply lang_Chr, N.eqb_refl. Qed.

Lemma lang_Cat1 (r1 r2 : re) (c : N) (w : pystr) :
  lang r1 [c] -> lang r2 w -> lang (Cat r1 r2) (c :: w).
Proof. intros H1 H2. exists [c], w. done. Qed.

Lemma lang_re_d (w : pystr) : lang re_d w <-> day_text w = true.
Proof.
  split.
  - unfold re_d, lit, rng, re_digit. cbn [lang].
    intros H. destruct_lang; close_text.
  - destruct w as [|a [|b [|? ?]]]; cbn [day_text]; try done; intros H.
    + right. right. right. left. by apply lang_Chr.
    + split_text.
      * left. apply lang_Cat1; [apply lang_lit|by apply lang_Chr].
      * right. left. apply lang_Cat1; by apply lang_Chr.
      * right. right. left.
        apply lang_Cat1; [apply lang_lit|by apply lang_Chr].
      * right. right. right. right.
        apply lang_Cat1; [apply lang_lit|by apply lang_Chr].
Qed.

Lemma lang_re_m (w : pystr) : lang re_m w <-> month_text w = true.
Proof.
  split.
  - unfold re_m, lit, rng. cbn [lang].
    intros H. destruct_lang; close_text.
  - destruct w as [|a [|b [|? ?]]]; cbn [month_text]; try done; intros H.
    + right. right. by apply lang_Chr.
    + split_text.
      * left. apply lang_Cat1; [apply lang_lit|by apply lang_Chr].
      * right. left. apply lang_Cat1; [apply lang_lit|by apply lang_Chr].
Qed.

Lemma lang_re_Y (w : pystr) : lang re_Y w <-> year_text w = true.
Proof.
  split.
  - unfold re_Y, re_digit. cbn [lang].
    intros H. destruct_lang; close_text.
  - destruct w as [|a [|b [|c [|d [|? ?]]]]]; cbn [year_text]; try done.
    intros H. split_text.
    repeat (apply lang_Cat1; [by apply lang_Chr|]). by apply lang_Chr.
Qed.

Lemma lang_re_dot (w : pystr) : lang re_dot w <-> w = [dot].
Proof.
  split.
  - unfold re_dot, lit. cbn [lang]. intros H. by destruct_lang.
  - intros ->. apply lang_lit.
Qed.

(** *** What the pattern of ["%d.%m.%Y"] matches *)

Lemma match_dmY_spec (s d m y rest : pystr) :
  (d, m, y, rest) ∈ match_dmY s
  <-> s = d ++ dot :: m ++ dot :: y ++ rest
      /\ day_text d = true /\ month_text m = true /\ year_text y = true.
Proof.
  unfold match_dmY. split.
  - intros H.
    apply list_elem_of_bind in H as ([d' s1] & H & Hd).
    apply list_elem_of_bind in H as ([p1 s2] & H & Hp1).
    apply list_elem_of_bind in H as ([m' s3] & H & Hm).
    apply list_elem_of_bind in H as ([p2 s4] & H & Hp2).
    apply list_elem_of_bind in H as ([y' s5] & H & Hy).
    apply list_elem_of_singleton in H. cbn [fst snd] in *.
    injection H as -> -> -> ->.
    apply matches_lang in Hd as [-> Hd%lang_re_d].
    apply matches_lang in Hp1 as [-> ->%lang_re_dot].
    apply matches_lang in Hm as [-> Hm%lang_re_m].
    apply matches_lang in Hp2 as [-> ->%lang_re_dot].
    apply matches_lang in Hy as [-> Hy%lang_re_Y].
    done.
  - intros (-> & Hd & Hm & Hy).
    apply list_elem_of_bind. exists (d, dot :: m ++ dot :: y ++ rest).
    split; [|by apply matches_lang, conj, lang_re_d].
    apply list_elem_of_bind. exists ([dot], m ++ dot :: y ++ rest).
    split; [|by apply matches_lang, conj, lang_re_dot].
    apply list_elem_of_bind. exists (m, dot :: y ++ rest).
    split; [|by apply matches_lang, conj, lang_re_m].
    apply list_elem_of_bind. exists ([dot], y ++ rest).
    split; [|by apply matches_lang, conj, lang_re_dot].
    apply list_elem_of_bind. exists (y, rest).
    split; [|by apply matches_lang, conj, lang_re_Y].
    by apply list_elem_of_singleton.
Qed.

Lemma in_range_not_dot (c : N) (r : N * N) :
  in_range c r = true -> (dot <? fst r)%N = true -> c <> dot.
Proof.
  unfold in_range. intros [H _]%andb_true_iff Hlo%N.ltb_lt ->.
  apply N.leb_le in H. lia.
Qed.

Lemma isdecimal_char_not_dot (c : N) : isdecimal_char c = true -> c <> dot.
Proof. intros H ->. by vm_compute in H. Qed.

Ltac not_dot :=
  first [ done
        | by apply isdecimal_char_not_dot
        | by (eapply in_range_not_dot; [eassumption|reflexivity]) ].

Lemma day_text_no_dot (d : pystr) : day_text d = true -> dot ∉ d.
Proof.
  destruct d as [|a [|b [|? ?]]]; cbn [day_text]; try done; intros H.
  - assert (a <> dot) by not_dot.
    intros Hin%list_elem_of_singleton. congruence.
  - assert (a <> dot /\ b <> dot) as [Ha Hb] by (split_text; split; not_dot).
    rewrite !not_elem_of_cons. split_and!; try done. apply not_elem_of_nil.
Qed.

Lemma month_text_no_dot (m : pystr) : month_text m = true -> dot ∉ m.
Proof.
  destruct m as [|a [|b [|? ?]]]; cbn [month_text]; try done; intros H.
  - assert (a <> dot) by not_dot.
    intros Hin%list_elem_of_singleton. congruence.
  - assert (a <> dot /\ b <> dot) as [Ha Hb] by (split_text; split; not_dot).
    rewrite !not_elem_of_cons. split_and!; try done. apply not_elem_of_nil.
Qed.

Lemma year_text_length (y : pystr) : year_text y = true -> length y = 4%nat.
Proof. by destruct y as [|a [|b [|c [|d [|? ?]]]]]. Qed.

(** Two ways to cut a text at its first dot are one. *)
Lemma cut_at_dot (w1 w2 t1 t2 : pystr) :
  dot ∉ w1 -> dot ∉ w2 ->
  w1 ++ dot :: t1 = w2 ++ dot :: t2 -> w1 = w2 /\ t1 = t2.
Proof.
  revert w2. induction w1 as [|a w1 IH]; intros [|b w2]; simpl.
  - by intros _ _ [= ->].
  - intros _ Hb [= <- _]. exfalso. apply Hb. by left.
  - intros Ha _ [= -> _]. exfalso. apply Ha. by left.
  - intros Ha Hb [= -> Heq].
    apply not_elem_of_cons in Ha as [_ Ha].
    apply not_elem_of_cons in Hb as [_ Hb].
    destruct (IH w2 Ha Hb Heq) as [-> ->]. done.
Qed.

(** The pattern matches a text in at most one way. *)
Lemma match_dmY_unique (s : pystr) (g1 g2 : pystr * pystr * pystr * pystr) :
  g1 ∈ match_dmY s -> g2 ∈ match_dmY s -> g1 = g2.
Proof.
  destruct g1 as [[[d1 m1] y1] r1], g2 as [[[d2 m2] y2] r2].
  intros (-> & Hd1 & Hm1 & Hy1)%match_dmY_spec
         (Heq & Hd2 & Hm2 & Hy2)%match_dmY_spec.
  apply cut_at_dot in Heq as [-> Heq]; try by apply day_text_no_dot.
  apply cut_at_dot in Heq as [-> Heq]; try by apply month_text_no_dot.
  apply app_inj_1 in Heq as [-> ->]; [done|].
  by rewrite !year_text_length.
Qed.

Lemma datetime_new_raises (year month day : Z) :
  real_date year month day = false ->
  exists msg, datetime_new year month day = inl (ValueError msg).
Proof.
  unfold datetime_new, real_date.
  destruct (MINYEAR <=? year), (year <=? MAXYEAR), (1 <=? month),
    (month <=? 12), (1 <=? day), (day <=? days_in_month year month);
    simpl; intros; try done; eauto.
Qed.

Lemma datetime_new_ok (year month day : Z) :
  real_date year month day = true ->
  datetime_new year month day
  = inr (mk_datetime (ymd2ord year month day) 0).
Proof.
  unfold datetime_new, real_date.
  destruct (MINYEAR <=? year), (year <=? MAXYEAR), (1 <=? month),
    (month <=? 12), (1 <=? day), (day <=? days_in_month year month); done.
Qed.

(** [strptime] raises nothing but [ValueError]. *)
Lemma strptime_dmY_raises (s : pystr) (e : exn) :
  strptime_dmY s = inl e -> exists msg, e = ValueError msg.
Proof.
  unfold strptime_dmY.
  destruct (match_dmY s) as [|[[[d m] y] rest] l]; [intros [= <-]; eauto|].
  destruct (str_truthy rest); [intros [= <-]; eauto|].
  destruct (real_date (py_int y) (py_int m) (py_int d)) eqn:Hr.
  - by rewrite datetime_new_ok.
  - destruct (datetime_new_raises _ _ _ Hr) as [msg ->].
    intros [= <-]. eauto.
Qed.

Lemma strptime_dmY_spec (s : pystr) (dt : datetime) :
  strptime_dmY s = inr dt
  <-> exists d m y,
        s = d ++ dot :: m ++ dot :: y
        /\ day_text d = true /\ month_text m = true /\ year_text y = true
        /\ real_date (py_int y) (py_int m) (py_int d) = true
        /\ dt = mk_datetime (ymd2ord (py_int y) (py_int m) (py_int d)) 0.
Proof.
  unfold strptime_dmY. split.
  - destruct (match_dmY s) as [|[[[d m] y] rest] l] eqn:Hm; [done|].
    assert (Hin : (d, m, y, rest) ∈ match_dmY s) by (rewrite Hm; by left).
    apply match_dmY_spec in Hin as (-> & Hd & Hmo & Hy).
    destruct rest; [|done]. simpl.
    destruct (real_date (py_int y) (py_int m) (py_int d)) eqn:Hr.
    + rewrite datetime_new_ok by done. intros [= <-].
      exists d, m, y. by rewrite app_nil_r.
    + by destruct (datetime_new_raises _ _ _ Hr) as [msg ->].
  - intros (d & m & y & -> & Hd & Hmo & Hy & Hr & ->).
    assert (Hin : (d, m, y, []) ∈ match_dmY (d ++ dot :: m ++ dot :: y)).
    { apply match_dmY_spec. by rewrite app_nil_r. }
    destruct (match_dmY (d ++ dot :: m ++ dot :: y)) as [|g l] eqn:Hm.
    + by apply elem_of_nil in Hin.
    + assert (g = (d, m, y, [])) as ->.
      { apply (match_dmY_unique (d ++ dot :: m ++ dot :: y));
          rewrite ?Hm; [by left|done]. }
      simpl. by apply datetime_new_ok.
Qed.

(** C8 (as the code has it).  Whatever sequence of handler calls and method
    calls a client runs on a book whose phones all pass the check of the
    [Phone] constructor (ten characters, all digits for [str.isdigit]), the
    phones of the book it ends with all pass it: no operation stores a phone
    that the constructor rejects.  A stored phone of ASCII characters is then
    a text of ten ASCII digits. *)
Theorem phone_format_invariant (ops : list op) (book : AddressBook.t) :
  book_phones_ok book ->
  book_phones_ok (run_ops ops book)
  /\ forall r p,
       r ∈ Dict.values (AddressBook.data (run_ops ops book)) ->
       p ∈ Record_.phones r ->
       Forall (fun c => (c < 128)%N) (Phone.value p) ->
       ten_ascii_digits (Phone.value p) = true.
Proof.
  intros Hbook.
  assert (Hok : book_phones_ok (run_ops ops book)).
  { unfold run_ops. revert book Hbook.
    induction ops as [|o ops IH]; intros book Hbook; simpl; [exact Hbook|].
    apply IH. by apply run_op_phones_ok. }
  split; [exact Hok|].
  intros r p Hr Hp Hascii.
  unfold book_phones_ok in Hok. rewrite Forall_forall in Hok.
  apply list_elem_of_In in Hr, Hp.
  pose proof (Hok r Hr) as Hphones. unfold phones_ok in Hphones.
  rewrite Forall_forall in Hphones.
  rewrite <- (ten_digits_ascii _ Hascii). by apply Hphones.
Qed.

Lemma phone_format_invariant_witness :
  book_phones_ok AddressBook.init
  /\ book_phones_ok (run_ops sample_ops AddressBook.init).
Proof.
  assert (H : book_phones_ok AddressBook.init) by constructor.
  split; [exact H|].
  exact (proj1 (phone_format_invariant sample_ops AddressBook.init H)).
Defined.

(** C8 does not hold with "ten ASCII digits" for the format: after an [add]
    and a [change] the book holds a phone of ten superscript twos. *)
Lemma change_stores_superscript_twos :
  Dict.get (str "jane")
    (AddressBook.data (run_ops superscript_ops AddressBook.init))
  = Some (Record_.mk (Name.mk (str "jane")) [Phone.mk superscript_twos] None)
  /\ ten_ascii_digits superscript_twos = false.
Proof. split; reflexivity. Qed.

Example run_sample_ops :
  run_ops sample_ops AddressBook.init
  = AddressBook.mk
      [(str "jane",
        Record_.mk (Name.mk (str "jane")) [Phone.mk (str "5555555555")] None)].
Proof. reflexivity. Qed.

(** *** Birthday construction *)

Lemma Birthday_init_accepted (s : pystr) :
  accepted_date_text s -> Birthday.init s = inr (Birthday.mk s).
Proof.
  intros (d & m & y & Hs & Hd & Hm & Hy & Hr).
  unfold Birthday.init, Birthday.validate.
  assert (H : strptime_dmY s
              = inr (mk_datetime (ymd2ord (py_int y) (py_int m) (py_int d)) 0)).
  { apply strptime_dmY_spec. exists d, m, y. done. }
  by rewrite H.
Qed.

Lemma Birthday_init_rejected (s : pystr) :
  ~ accepted_date_text s ->
  Birthday.init s = inl (ValueError Birthday.invalid_msg).
Proof.
  intros Hs. unfold Birthday.init, Birthday.validate.
  destruct (strptime_dmY s) as [e|dt] eqn:H.
  - by destruct (strptime_dmY_raises s e H) as [msg ->].
  - exfalso. apply Hs.
    apply strptime_dmY_spec in H as (d & m & y & ? & ? & ? & ? & ? & _).
    exists d, m, y. done.
Qed.

Lemma accepted_date_text_dec (s : pystr) :
  accepted_date_text s \/ ~ accepted_date_text s.
Proof.
  destruct (strptime_dmY s) as [e|dt] eqn:H.
  - right. intros (d & m & y & Hs & Hd & Hm & Hy & Hr).
    assert (H' : strptime_dmY s
              = inr (mk_datetime (ymd2ord (py_int y) (py_int m) (py_int d)) 0)).
    { apply strptime_dmY_spec. exists d, m, y. done. }
    congruence.
  - left. apply strptime_dmY_spec in H as (d & m & y & ? & ? & ? & ? & ? & _).
    exists d, m, y. done.
Qed.

(** Digits of the ASCII range. *)

Lemma decimal_value_ascii (c : N) :
  ascii_digit c = true -> decimal_value c = Z.of_N c - 48.
Proof.
  intros Hc. unfold decimal_value.
  change decimal_ranges with ((48, 57)%N :: tl decimal_ranges).
  cbn [List.find]. change (in_range c (48, 57)%N) with (ascii_digit c).
  rewrite Hc. unfold ascii_digit in Hc.
  apply andb_true_iff in Hc as [H1%N.leb_le H2%N.leb_le].
  rewrite N.mod_small by lia. lia.
Qed.

Lemma ascii_digit_bounds (c : N) :
  ascii_digit c = true <-> (48 <= c <= 57)%N.
Proof.
  unfold ascii_digit. rewrite andb_true_iff, !N.leb_le. done.
Qed.

Lemma ascii_digit_isdecimal (c : N) :
  ascii_digit c = true -> isdecimal_char c = true.
Proof.
  intros Hc. unfold isdecimal_char.
  change decimal_ranges with ((48, 57)%N :: tl decimal_ranges).
  unfold in_ranges. cbn [existsb].
  change (in_range c (48, 57)%N) with (ascii_digit c). by rewrite Hc.
Qed.

Lemma py_int_2 (a b : N) :
  ascii_digit a = true -> ascii_digit b = true ->
  py_int [a; b] = 10 * (Z.of_N a - 48) + (Z.of_N b - 48).
Proof.
  intros Ha Hb. unfold py_int.
  assert ((a =? 32)%N = false) as ->.
  { apply N.eqb_neq. apply ascii_digit_bounds in Ha. lia. }
  unfold int_digits. cbn [fold_left].
  rewrite !decimal_value_ascii by done. lia.
Qed.

Lemma days_in_month_le_31 (year month : Z) :
  1 <= month <= 12 -> days_in_month year month <= 31.
Proof.
  intros Hm. unfold days_in_month.
  destruct ((month =? 2) && is_leap year); [lia|].
  assert (month = 1 \/ month = 2 \/ month = 3 \/ month = 4 \/ month = 5
          \/ month = 6 \/ month = 7 \/ month = 8 \/ month = 9
          \/ month = 10 \/ month = 11 \/ month = 12) as H by lia.
  repeat (destruct H as [->|H]; [vm_compute; congruence|]).
  subst. vm_compute. congruence.
Qed.

Lemma real_date_bounds (year month day : Z) :
  real_date year month day = true
  <-> (MINYEAR <= year <= MAXYEAR) /\ (1 <= month <= 12)
      /\ (1 <= day <= days_in_month year month).
Proof.
  unfold real_date. rewrite !andb_true_iff, !Z.leb_le. tauto.
Qed.

Lemma ascii_digit_not_dot (c : N) : ascii_digit c = true -> c <> dot.
Proof. intros Hc%ascii_digit_bounds ->. unfold dot in Hc. lia. Qed.

Lemma ascii_digits_no_dot (a b : N) :
  ascii_digit a = true -> ascii_digit b = true -> dot ∉ [a; b].
Proof.
  intros Ha%ascii_digit_not_dot Hb%ascii_digit_not_dot.
  rewrite !not_elem_of_cons. split_and!; [congruence..|apply not_elem_of_nil].
Qed.

Lemma day_text_ascii (a b : N) :
  ascii_digit a = true -> ascii_digit b = true ->
  1 <= py_int [a; b] <= 31 -> day_text [a; b] = true.
Proof.
  intros Ha Hb. rewrite py_int_2 by done.
  pose proof (ascii_digit_isdecimal b Hb) as Hdec.
  apply ascii_digit_bounds in Ha, Hb. intros Hv.
  unfold day_text, in_range. cbn [fst snd]. rewrite Hdec.
  rewrite !orb_true_iff, !andb_true_iff, !N.eqb_eq, !N.leb_le. lia.
Qed.

Lemma month_text_ascii (a b : N) :
  ascii_digit a = true -> ascii_digit b = true ->
  1 <= py_int [a; b] <= 12 -> month_text [a; b] = true.
Proof.
  intros Ha Hb. rewrite py_int_2 by done.
  apply ascii_digit_bounds in Ha, Hb. intros Hv.
  unfold month_text, in_range. cbn [fst snd].
  rewrite !orb_true_iff, !andb_true_iff, !N.eqb_eq, !N.leb_le. lia.
Qed.

(** For a text of the form DD.MM.YYYY the parser asks for nothing more than
    a real date. *)
Lemma DD_MM_YYYY_accepted (s : pystr) :
  is_DD_MM_YYYY s = true ->
  accepted_date_text s
  <-> real_date (py_int (drop 6 s)) (py_int (take 2 (drop 3 s)))
        (py_int (take 2 s)) = true.
Proof.
  destruct s as [|d1 [|d2 [|p1 [|m1 [|m2 [|p2 [|y1 [|y2 [|y3 [|y4 [|? ?]]]]]]]]]]];
    try done.
  cbn [is_DD_MM_YYYY take drop]. intros H. split_text.
  split.
  - intros (d & m & y & Hs & Hd & Hm & Hy & Hr).
    change [d1; d2; dot; m1; m2; dot; y1; y2; y3; y4]
      with ([d1; d2] ++ dot :: [m1; m2] ++ dot :: [y1; y2; y3; y4]) in Hs.
    apply cut_at_dot in Hs as [<- Hs].
    + apply cut_at_dot in Hs as [<- <-]; [done| |by apply month_text_no_dot].
      by apply ascii_digits_no_dot.
    + by apply ascii_digits_no_dot.
    + by apply day_text_no_dot.
  - intros Hr. exists [d1; d2], [m1; m2], [y1; y2; y3; y4].
    pose proof Hr as (Hy & Hm & Hd)%real_date_bounds.
    split_and!; try done.
    + apply day_text_ascii; try done.
      pose proof (days_in_month_le_31 (py_int [y1; y2; y3; y4])
                    (py_int [m1; m2]) Hm). lia.
    + by apply month_text_ascii.
    + cbn [year_text]. by rewrite !ascii_digit_isdecimal.
Qed.

(** C4 (as the code has it).  [Birthday(s)] succeeds exactly on the texts
    that the parser takes: a day of one or two digits (or a space and a
    digit), a dot, a month of one or two digits, a dot, a year of four
    digits, naming a real date.  The stored value is then [s] itself; any
    other text raises [ValueError] with the format message.  On texts of
    the form DD.MM.YYYY the constructor succeeds exactly when the text names
    a real date. *)
Theorem Birthday_init_spec (s : pystr) :
  ((exists b, Birthday.init s = inr b) <-> accepted_date_text s)
  /\ (forall b, Birthday.init s = inr b -> Birthday.to_str b = s)
  /\ (~ accepted_date_text s ->
      Birthday.init s = inl (ValueError Birthday.invalid_msg))
  /\ (is_DD_MM_YYYY s = true ->
      (exists b, Birthday.init s = inr b)
      <-> real_date (py_int (drop 6 s)) (py_int (take 2 (drop 3 s)))
            (py_int (take 2 s)) = true).
Proof.
  assert (Hiff : (exists b, Birthday.init s = inr b) <-> accepted_date_text s).
  { split.
    - intros [b Hb]. destruct (accepted_date_text_dec s) as [|Hn]; [done|].
      rewrite (Birthday_init_rejected s Hn) in Hb. done.
    - intros Hs. rewrite (Birthday_init_accepted s Hs). eauto. }
  split_and!.
  - exact Hiff.
  - intros b Hb.
    assert (Hs : accepted_date_text s) by (apply Hiff; eauto).
    rewrite (Birthday_init_accepted s Hs) in Hb. by injection Hb as <-.
  - apply Birthday_init_rejected.
  - intros Hf. rewrite Hiff. by apply DD_MM_YYYY_accepted.
Qed.

(** C4 does not hold with "two-digit day, two-digit month": [5.5.1990] makes
    a [Birthday]. *)
Lemma Birthday_init_one_digit_day :
  Birthday.init one_digit_date = inr (Birthday.mk one_digit_date)
  /\ is_DD_MM_YYYY one_digit_date = false.
Proof. split; reflexivity. Qed.

(** *** The birthday query *)

Lemma weekday_bounds (dt : datetime) : 0 <= weekday dt <= 6.
Proof.
  unfold weekday. pose proof (Z.mod_pos_bound (ordinal dt + 6) 7). lia.
Qed.

Lemma window_start_add_days (now : datetime) :
  window_representable now ->
  add_days now ((6 - weekday now) + 7) = inr (window_start now).
Proof.
  intros [Hlo Hhi]. unfold add_days, window_start.
  unfold window_end, window_start in Hhi. simpl in Hhi.
  pose proof (weekday_bounds now) as Hw.
  assert (((0 <? ordinal now + (6 - weekday now + 7))
           && (ordinal now + (6 - weekday now + 7) <=? MAXORDINAL)) = true)
    as ->; [|done].
  apply andb_true_iff. rewrite Z.ltb_lt, Z.leb_le. lia.
Qed.

Lemma window_end_add_days (now : datetime) :
  window_representable now ->
  add_days (window_start now) 6 = inr (window_end now).
Proof.
  intros [Hlo Hhi]. unfold add_days, window_end.
  unfold window_end in Hhi. simpl in Hhi.
  pose proof (weekday_bounds now) as Hw.
  assert (((0 <? ordinal (window_start now) + 6)
           && (ordinal (window_start now) + 6 <=? MAXORDINAL)) = true)
    as ->; [|done].
  apply andb_true_iff. rewrite Z.ltb_lt, Z.leb_le.
  unfold window_start in *. simpl in *. lia.
Qed.

(** The loop adds to the list, in order, the entry of every record that has
    one. *)
Lemma birthdays_loop_spec (now : datetime) (records : list Record_.t)
    (acc : list (pystr * pystr)) :
  Forall birthday_ok records ->
  AddressBook.birthdays_loop (window_start now) (window_end now) records acc
  = inr (acc ++ omap (upcoming_of now) records).
Proof.
  revert acc. induction records as [|r records IH]; intros acc Hok.
  - simpl. by rewrite app_nil_r.
  - apply Forall_cons_1 in Hok as [Hr Hok].
    cbn [AddressBook.birthdays_loop omap list_omap].
    unfold upcoming_of at 1. unfold birthday_ok in Hr.
    destruct (Record_.birthday r) as [b|]; [|by apply IH].
    destruct Hr as [dt Hdt]. unfold in_window. rewrite Hdt.
    destruct (datetime_le (window_start now) dt
              && datetime_le dt (window_end now)).
    + rewrite IH by done. by rewrite <- app_assoc.
    + by apply IH.
Qed.

(** The day that a parsed text spells. *)








Example upcoming_sample :
  upcoming_spec sample_now sample_book = [(str "ann", str "16.11.2026")].
Proof. reflexivity. Qed.

(** The entries of the answer. *)
Lemma upcoming_spec_elem (now : datetime) (book : AddressBook.t)
    (name value : pystr) :
  (name, value) ∈ upcoming_spec now book
  <-> exists r,
        r ∈ Dict.values (AddressBook.data book)
        /\ Name.value (Record_.name r) = name
        /\ Record_.birthday r = Some (Birthday.mk value)
        /\ in_window now value = true.
Proof.
  unfold upcoming_spec. rewrite list_elem_of_omap. split.
  - intros (r & Hr & Hu). exists r. split; [done|].
    unfold upcoming_of in Hu.
    destruct (Record_.birthday r) as [[v]|]; [|done]. simpl in Hu.
    destruct (in_window now v) eqn:Hw; [|done].
    by injection Hu as <- <-.
  - intros (r & Hr & Hn & Hb & Hw). exists r. split; [done|].
    unfold upcoming_of. rewrite Hb. simpl. by rewrite Hw, Hn.
Qed.

(** A text lies in the window when the date it spells, with the year as
    written, does. *)
Lemma in_window_literal (now : datetime) (s : pystr) :
  in_window now s = true
  <-> exists d m y,
        s = d ++ dot :: m ++ dot :: y
        /\ day_text d = true /\ month_text m = true /\ year_text y = true
        /\ real_date (py_int y) (py_int m) (py_int d) = true
        /\ let birthday_date :=
             mk_datetime (ymd2ord (py_int y) (py_int m) (py_int d)) 0 in
           datetime_le (window_start now) birthday_date = true
           /\ datetime_le birthday_date (window_end now) = true.
Proof.
  unfold in_window. split.
  - destruct (strptime_dmY s) as [e|dt] eqn:H; [done|].
    apply strptime_dmY_spec in H as (d & m & y & ? & ? & ? & ? & ? & ->).
    intros [? ?]%andb_true_iff. exists d, m, y. done.
  - intros (d & m & y & Hs & Hd & Hm & Hy & Hr & Hle1 & Hle2).
    assert (H : strptime_dmY s
              = inr (mk_datetime (ymd2ord (py_int y) (py_int m) (py_int d)) 0)).
    { apply strptime_dmY_spec. exists d, m, y. done. }
    rewrite H. by apply andb_true_iff.
Qed.

(** The days of the window.  A birthday is a [datetime] at midnight, so the
    day on which the window starts counts only when [now] is at midnight
    itself; the day on which it ends always counts. *)
Lemma window_days (now : datetime) (day : Z) :
  0 <= tod now ->
  datetime_le (window_start now) (mk_datetime day 0)
  && datetime_le (mk_datetime day 0) (window_end now) = true
  <-> ordinal (window_start now) + (if tod now =? 0 then 0 else 1) <= day
      /\ day <= ordinal (window_end now).
Proof.
  intros Ht. unfold datetime_le, window_end, window_start. simpl.
  rewrite andb_true_iff, !orb_true_iff, !andb_true_iff.
  rewrite !Z.ltb_lt, !Z.eqb_eq, !Z.leb_le.
  destruct (tod now =? 0) eqn:H0;
    [apply Z.eqb_eq in H0|apply Z.eqb_neq in H0]; lia.
Qed.

Lemma add_days_cases (dt : datetime) (n : Z) :
  (0 < ordinal dt + n <= MAXORDINAL
   /\ add_days dt n = inr (mk_datetime (ordinal dt + n) (tod dt)))
  \/ (~ (0 < ordinal dt + n <= MAXORDINAL)
      /\ add_days dt n = inl (OverflowError (str "date value out of range"))).
Proof.
  unfold add_days.
  destruct ((0 <? ordinal dt + n) && (ordinal dt + n <=? MAXORDINAL)) eqn:H.
  - left. apply andb_true_iff in H as [?%Z.ltb_lt ?%Z.leb_le]. split; [lia|done].
  - right. apply andb_false_iff in H as [?%Z.ltb_ge|?%Z.leb_gt]; split;
      try done; lia.
Qed.

(** X23.  Past the last instants of the year 9999 the window is no
    [datetime]: the query raises [OverflowError], which the decorator lets
    through, so [birthdays] raises it too. *)
Lemma get_birthdays_per_week_overflow (now : datetime) (book : AddressBook.t) :
  MAXORDINAL < ordinal (window_end now) ->
  exists msg,
    AddressBook.get_birthdays_per_week now book = (inl (OverflowError msg), book)
    /\ birthdays now book = (inl (OverflowError msg), book).
Proof.
  intros Hhi. unfold window_end, window_start in Hhi. simpl in Hhi.
  assert (exists msg, AddressBook.get_birthdays_per_week now book
                      = (inl (OverflowError msg), book)) as [msg Hq].
  { unfold AddressBook.get_birthdays_per_week, bind, get, lift.
    destruct (add_days_cases now (6 - weekday now + 7)) as [[_ ->]|[_ ->]];
      [|eauto].
    destruct (add_days_cases
                (mk_datetime (ordinal now + (6 - weekday now + 7)) (tod now)) 6)
      as [[Hr _]|[_ ->]]; [|eauto].
    simpl in Hr. lia. }
  exists msg. split; [done|].
  unfold birthdays, input_error, birthdays_func, try_except, bind.
  by rewrite Hq.
Qed.

(** *** Stored birthdays stay parseable *)

Lemma Birthday_init_parses (s : pystr) (b : Birthday.t) :
  Birthday.init s = inr b ->
  exists dt, strptime_dmY (Birthday.value b) = inr dt.
Proof.
  unfold Birthday.init, Birthday.validate.
  destruct (strptime_dmY s) as [[]|dt] eqn:H; try done.
  intros [= <-]. simpl. eauto.
Qed.

Lemma add_birthday_birthday_ok (date : pystr) (r : Record_.t) :
  birthday_ok r -> birthday_ok (snd (Record_.add_birthday date r)).
Proof.
  intros Hr. unfold Record_.add_birthday. unfold_m.
  destruct (Record_.birthday r) eqn:Hb; [done|].
  destruct (Birthday.init date) as [e|b] eqn:Hi; [done|].
  unfold birthday_ok. simpl. by apply (Birthday_init_parses date).
Qed.

Lemma add_phone_birthday (phone : pystr) (r : Record_.t) :
  Record_.birthday (snd (Record_.add_phone phone r)) = Record_.birthday r.
Proof.
  unfold Record_.add_phone. unfold_m.
  by destruct (Phone.init phone) as [[]|].
Qed.

Lemma edit_phone_birthday (old_phone new_phone : pystr) (r : Record_.t) :
  Record_.birthday (snd (Record_.edit_phone old_phone new_phone r))
  = Record_.birthday r.
Proof.
  unfold Record_.edit_phone. unfold_m.
  destruct (Record_.first_with_value old_phone (Record_.phones r))
    as [[i p]|]; [|done].
  by destruct (Phone.init new_phone) as [[]|].
Qed.

Lemma remove_phone_birthday (phone : pystr) (r : Record_.t) :
  Record_.birthday (snd (Record_.remove_phone phone r)) = Record_.birthday r.
Proof.
  unfold Record_.remove_phone. unfold_m.
  by destruct (Record_.first_with_value phone (Record_.phones r))
    as [[i p]|].
Qed.

Lemma phones_setitem_birthday (i : nat) (value : Phone.t) (r : Record_.t) :
  Record_.birthday (snd (phones_setitem i value r)) = Record_.birthday r.
Proof.
  unfold phones_setitem. unfold_m.
  by destruct (decide (i < length (Record_.phones r))%nat).
Qed.

Lemma Record_init_birthday_ok (name : pystr) (phone birthday : option pystr)
    (r : Record_.t) :
  Record_.init name phone birthday = inr r -> birthday_ok r.
Proof.
  unfold Record_.init. unfold bind at 1.
  set (r0 := Record_.mk (Name.init name) [] None).
  assert (H0 : birthday_ok r0) by done.
  set (m1 := match phone with Some _ => _ | None => _ end).
  assert (H1 : birthday_ok (snd (m1 r0))).
  { subst m1. destruct phone as [ph|]; [|done].
    destruct (str_truthy ph); [|done].
    pose proof (add_phone_birthday ph r0) as H.
    unfold bind at 1. destruct (Record_.add_phone ph r0) as [[?|?] r1];
      simpl in *; unfold birthday_ok; by rewrite H. }
  destruct (m1 r0) as [[e|[]] r1]; [done|]. simpl in H1.
  set (m2 := match birthday with Some _ => _ | None => _ end).
  assert (H2 : birthday_ok (snd (m2 r1))).
  { subst m2. destruct birthday as [bd|]; [|done].
    destruct (str_truthy bd); [|done]. by apply add_birthday_birthday_ok. }
  destruct (m2 r1) as [[e|[]] r2]; [done|]. by intros [= <-].
Qed.

Lemma run_ops_birthdays_ok (ops : list op) (book : AddressBook.t) :
  book_birthdays_ok book -> book_birthdays_ok (run_ops ops book).
Proof.
  unfold book_birthdays_ok. apply run_ops_values. intros o b.
  apply run_op_values.
  - apply Record_init_birthday_ok.
  - intros ? c Hc. unfold birthday_ok. by rewrite add_phone_birthday.
  - intros ? ? c Hc. unfold birthday_ok. by rewrite edit_phone_birthday.
  - intros ? c Hc. unfold birthday_ok. by rewrite remove_phone_birthday.
  - intros ? c _ Hc. unfold birthday_ok. by rewrite phones_setitem_birthday.
  - intros. by apply add_birthday_birthday_ok.
Qed.

(** The books that a client can build from the empty one. *)
Corollary reachable_book_ok (ops : list op) :
  book_phones_ok (run_ops ops AddressBook.init)
  /\ book_birthdays_ok (run_ops ops AddressBook.init).
Proof.
  split.
  - apply (run_ops_values phones_ok); [apply run_op_phones_ok|constructor].
  - apply run_ops_birthdays_ok. constructor.
Qed.

(** *** The calendar *)

Lemma days_before_year_succ (year : Z) :
  days_before_year (year + 1) = days_before_year year + days_in_year year.
Proof.
  unfold days_before_year, days_in_year, is_leap.
  replace (year + 1 - 1) with year by lia.
  destruct (year mod 4 =? 0) eqn:H4; destruct (year mod 100 =? 0) eqn:H100;
    destruct (year mod 400 =? 0) eqn:H400; simpl;
    rewrite ?Z.eqb_eq, ?Z.eqb_neq in *;
    Z.div_mod_to_equations; lia.
Qed.

Lemma days_in_year_pos (year : Z) : 365 <= days_in_year year.
Proof. unfold days_in_year. destruct (is_leap year); lia. Qed.

Lemma days_before_year_mono (y1 y2 : Z) :
  y1 <= y2 -> days_before_year y1 <= days_before_year y2.
Proof.
  intros H. replace y2 with (y1 + Z.of_nat (Z.to_nat (y2 - y1))) by lia.
  induction (Z.to_nat (y2 - y1)) as [|n IH]; [by rewrite Z.add_0_r|].
  rewrite Nat2Z.inj_succ.
  replace (y1 + Z.succ (Z.of_nat n)) with (y1 + Z.of_nat n + 1) by lia.
  rewrite days_before_year_succ.
  pose proof (days_in_year_pos (y1 + Z.of_nat n)). lia.
Qed.

Lemma month_cases (month : Z) :
  1 <= month <= 12 ->
  month = 1 \/ month = 2 \/ month = 3 \/ month = 4 \/ month = 5
  \/ month = 6 \/ month = 7 \/ month = 8 \/ month = 9
  \/ month = 10 \/ month = 11 \/ month = 12.
Proof. lia. Qed.

Lemma days_before_month_succ (year month : Z) :
  1 <= month <= 11 ->
  days_before_month year (month + 1)
  = days_before_month year month + days_in_month year month.
Proof.
  intros Hm. unfold days_before_month, days_in_month.
  assert (1 <= month <= 12) as Hc%month_cases by lia.
  destruct (is_leap year);
    repeat (destruct Hc as [->|Hc]; [reflexivity|]); subst; try reflexivity;
    lia.
Qed.

Lemma days_in_month_pos (year month : Z) :
  1 <= month <= 12 -> 28 <= days_in_month year month.
Proof.
  intros Hc%month_cases. unfold days_in_month.
  destruct (is_leap year);
    repeat (destruct Hc as [->|Hc]; [vm_compute; congruence|]); subst;
    vm_compute; congruence.
Qed.

Lemma days_before_month_mono (year m1 m2 : Z) :
  1 <= m1 -> m1 <= m2 -> m2 <= 12 ->
  days_before_month year m1 <= days_before_month year m2.
Proof.
  intros H1 H12 H2.
  replace m2 with (m1 + Z.of_nat (Z.to_nat (m2 - m1))) in * by lia.
  induction (Z.to_nat (m2 - m1)) as [|n IH]; [by rewrite Z.add_0_r|].
  rewrite Nat2Z.inj_succ in *.
  replace (m1 + Z.succ (Z.of_nat n)) with (m1 + Z.of_nat n + 1) in * by lia.
  rewrite days_before_month_succ by lia.
  pose proof (days_in_month_pos year (m1 + Z.of_nat n)). lia.
Qed.

Lemma days_before_month_12 (year : Z) :
  days_before_month year 12 + days_in_month year 12 = days_in_year year.
Proof.
  unfold days_before_month, days_in_month, days_in_year.
  by destruct (is_leap year).
Qed.

(** The day of a real date counts from 1 to the length of its year. *)
Lemma day_of_year_bounds (year month day : Z) :
  real_date year month day = true ->
  1 <= days_before_month year month + day <= days_in_year year.
Proof.
  intros (Hy & Hm & Hd)%real_date_bounds.
  pose proof (days_before_month_mono year 1 month) as Hlo.
  pose proof (days_before_month_mono year month 12) as Hhi.
  pose proof (days_before_month_12 year) as H12.
  assert (days_before_month year 1 = 0) as H1 by done.
  assert (month = 12 \/ month <= 11) as [->|Hlt] by lia; [lia|].
  pose proof (days_before_month_succ year month) as Hs.
  pose proof (days_before_month_mono year (month + 1) 12) as Hhi'.
  pose proof (days_in_month_pos year 12). lia.
Qed.

Lemma ymd2ord_increasing (y1 m1 d1 y2 m2 d2 : Z) :
  real_date y1 m1 d1 = true -> real_date y2 m2 d2 = true ->
  date_lt (y1, m1, d1) (y2, m2, d2) ->
  ymd2ord y1 m1 d1 < ymd2ord y2 m2 d2.
Proof.
  intros H1 H2 Hlt. unfold ymd2ord.
  pose proof (day_of_year_bounds _ _ _ H1) as B1.
  pose proof (day_of_year_bounds _ _ _ H2) as B2.
  apply real_date_bounds in H1 as (Hy1 & Hm1 & Hd1).
  apply real_date_bounds in H2 as (Hy2 & Hm2 & Hd2).
  destruct Hlt as [Hy|[-> [Hm|[-> Hd]]]].
  - pose proof (days_before_year_succ y1).
    pose proof (days_before_year_mono (y1 + 1) y2). lia.
  - pose proof (days_before_month_succ y2 m1).
    pose proof (days_before_month_mono y2 (m1 + 1) m2). lia.
  - lia.
Qed.

(** Comparing two real dates is comparing their ordinals. *)
Theorem ymd2ord_lt_iff (y1 m1 d1 y2 m2 d2 : Z) :
  real_date y1 m1 d1 = true -> real_date y2 m2 d2 = true ->
  date_lt (y1, m1, d1) (y2, m2, d2)
  <-> ymd2ord y1 m1 d1 < ymd2ord y2 m2 d2.
Proof.
  intros H1 H2. split; [by apply ymd2ord_increasing|].
  intros Hlt.
  destruct (Z.lt_trichotomy y1 y2) as [?|[->|Hy]]; [by left| |].
  - destruct (Z.lt_trichotomy m1 m2) as [?|[->|Hm]]; [right; by auto| |].
    + destruct (Z.lt_trichotomy d1 d2) as [?|[->|Hd]];
        [right; by auto|lia|].
      assert (date_lt (y2, m2, d2) (y2, m2, d1)) as Hgt by (right; auto).
      apply ymd2ord_increasing in Hgt; [lia|done..].
    + assert (date_lt (y2, m2, d2) (y2, m1, d1)) as Hgt by (right; auto).
      apply ymd2ord_increasing in Hgt; [lia|done..].
  - assert (date_lt (y2, m2, d2) (y1, m1, d1)) as Hgt by (by left).
    apply ymd2ord_increasing in Hgt; [lia|done..].
Qed.

(** The ordinal of a real date is in the range of [date]. *)
Lemma ymd2ord_range (year month day : Z) :
  real_date year month day = true ->
  1 <= ymd2ord year month day <= MAXORDINAL.
Proof.
  intros H. pose proof (day_of_year_bounds _ _ _ H) as B.
  apply real_date_bounds in H as (Hy & _ & _). unfold ymd2ord.
  pose proof (days_before_year_mono 1 year).
  pose proof (days_before_year_succ year).
  pose proof (days_before_year_mono (year + 1) 10000).
  assert (days_before_year 1 = 0) by done.
  assert (days_before_year 10000 = MAXORDINAL) by done.
  unfold MINYEAR, MAXYEAR in Hy. lia.
Qed.

(** *** More on the phone methods *)

Lemma first_with_value_at (phone : pystr) (l1 l2 : list Phone.t)
    (p : Phone.t) :
  Phone.value p = phone ->
  Forall (fun q => Phone.value q <> phone) l1 ->
  Record_.first_with_value phone (l1 ++ p :: l2) = Some (length l1, p).
Proof.
  intros Hp Hl1. unfold Record_.first_with_value.
  apply list_find_Some. split_and!.
  - by apply list_lookup_middle.
  - done.
  - intros j q Hj Hlt. rewrite lookup_app_l in Hj by done.
    by eapply Forall_lookup_1 in Hl1.
Qed.

Lemma first_with_value_None (phone : pystr) (ps : list Phone.t) :
  Forall (fun q => Phone.value q <> phone) ps ->
  Record_.first_with_value phone ps = None.
Proof. intros H. unfold Record_.first_with_value. by apply list_find_None. Qed.

Lemma first_with_value_Some (phone : pystr) (ps : list Phone.t)
    (i : nat) (p : Phone.t) :
  Record_.first_with_value phone ps = Some (i, p) ->
  exists l1 l2,
    ps = l1 ++ p :: l2 /\ i = length l1 /\ Phone.value p = phone
    /\ Forall (fun q => Phone.value q <> phone) l1.
Proof.
  unfold Record_.first_with_value.
  intros (Hi & Hp & Hmin)%list_find_Some.
  exists (take i ps), (drop (S i) ps).
  pose proof (lookup_lt_Some _ _ _ Hi) as Hlt.
  split_and!.
  - by rewrite <- (take_drop_middle ps i p) at 1.
  - rewrite length_take. lia.
  - done.
  - apply Forall_lookup. intros j q Hj.
    pose proof (lookup_lt_Some _ _ _ Hj) as Hjl. rewrite length_take in Hjl.
    rewrite lookup_take_lt in Hj by lia. apply (Hmin j q Hj). lia.
Qed.

(** X1.  [add_phone] never raises.  A value in the phone format is appended
    as the last phone, and [find_phone] then finds a phone of that value; any
    other value leaves the record as it was and the validation message is
    what the method returns. *)
Theorem add_phone_spec (phone : pystr) (r : Record_.t) :
  Record_.add_phone phone r
  = (if ten_digits phone
     then (inr (str "Phone " ++ phone ++ str " added."),
           Record_.set_phones (Record_.phones r ++ [Phone.mk phone]) r)
     else (inr Phone.invalid_msg, r))
  /\ (ten_digits phone = true ->
      Record_.find_phone phone (snd (Record_.add_phone phone r))
      = Some (Phone.mk phone)).
Proof.
  assert (Hadd : Record_.add_phone phone r
                 = (if ten_digits phone
                    then (inr (str "Phone " ++ phone ++ str " added."),
                          Record_.set_phones
                            (Record_.phones r ++ [Phone.mk phone]) r)
                    else (inr Phone.invalid_msg, r))).
  { unfold Record_.add_phone. unfold_m. rewrite Phone_init_ten_digits.
    by destruct (ten_digits phone). }
  split; [exact Hadd|].
  intros Hp. rewrite Hadd, Hp. unfold Record_.find_phone. simpl.
  destruct (Record_.first_with_value phone
              (Record_.phones r ++ [Phone.mk phone])) as [[i p]|] eqn:H.
  - apply first_with_value_Some in H as (? & ? & _ & _ & Hv & _).
    simpl. destruct p as [v]. simpl in Hv. by subst.
  - unfold Record_.first_with_value in H.
    apply list_find_None, Forall_app in H as [_ H].
    apply Forall_cons_1 in H as [H _]. done.
Qed.

(** X2.  [remove_phone] takes out the first phone of the given value and
    nothing else: the phones before it and after it, later phones of the same
    value among them, stay in their order. *)
Theorem remove_phone_first_occurrence (phone : pystr) (r : Record_.t)
    (l1 l2 : list Phone.t) (p : Phone.t) :
  Record_.phones r = l1 ++ p :: l2 ->
  Phone.value p = phone ->
  Forall (fun q => Phone.value q <> phone) l1 ->
  Record_.remove_phone phone r
  = (inr (str "Phone " ++ phone ++ str " removed."),
     Record_.set_phones (l1 ++ l2) r).
Proof.
  intros Hps Hp Hl1. unfold Record_.remove_phone. unfold_m.
  rewrite Hps, (first_with_value_at phone l1 l2 p Hp Hl1).
  by rewrite delete_middle.
Qed.

(** X3.  With a new value in the phone format, [edit_phone] puts the new
    phone at the place of the first phone of the old value; every other phone
    keeps its place. *)
Theorem edit_phone_replaces_in_place (old_phone new_phone : pystr)
    (r : Record_.t) (l1 l2 : list Phone.t) (p : Phone.t) :
  Record_.phones r = l1 ++ p :: l2 ->
  Phone.value p = old_phone ->
  Forall (fun q => Phone.value q <> old_phone) l1 ->
  ten_digits new_phone = true ->
  Record_.edit_phone old_phone new_phone r
  = (inr (str "Phone " ++ old_phone ++ str " edited to " ++ new_phone
          ++ str "."),
     Record_.set_phones (l1 ++ Phone.mk new_phone :: l2) r).
Proof.
  intros Hps Hp Hl1 Hnew. unfold Record_.edit_phone. unfold_m.
  rewrite Hps, (first_with_value_at old_phone l1 l2 p Hp Hl1).
  rewrite Phone_init_ten_digits, Hnew.
  rewrite insert_app_r_alt by done. by rewrite Nat.sub_diag.
Qed.

(** X4.  When no phone of the record has the value, [remove_phone] and
    [edit_phone] answer that it was not found and leave the record as it was,
    whatever the new value is, and [find_phone] returns [None]. *)
Theorem phone_absent_no_change (phone new_phone : pystr) (r : Record_.t) :
  Forall (fun q => Phone.value q <> phone) (Record_.phones r) ->
  Record_.remove_phone phone r
  = (inr (str "Phone " ++ phone ++ str " not found."), r)
  /\ Record_.edit_phone phone new_phone r
     = (inr (str "Phone " ++ phone ++ str " not found."), r)
  /\ Record_.find_phone phone r = None.
Proof.
  intros H. apply first_with_value_None in H.
  unfold Record_.remove_phone, Record_.edit_phone, Record_.find_phone.
  unfold_m. by rewrite H.
Qed.

(** X5.  [find_phone] returns the first phone of the given value: it
    returns [p] exactly when [p] has the value and stands in the list before
    every other phone that has it. *)
Theorem find_phone_first (phone : pystr) (r : Record_.t) (p : Phone.t) :
  Record_.find_phone phone r = Some p
  <-> exists l1 l2,
        Record_.phones r = l1 ++ p :: l2 /\ Phone.value p = phone
        /\ Forall (fun q => Phone.value q <> phone) l1.
Proof.
  unfold Record_.find_phone. split.
  - destruct (Record_.first_with_value phone (Record_.phones r))
      as [[i q]|] eqn:H; [|done].
    intros [= <-].
    apply first_with_value_Some in H as (l1 & l2 & ? & _ & ? & ?).
    by exists l1, l2.
  - intros (l1 & l2 & Hps & Hp & Hl1).
    by rewrite Hps, (first_with_value_at phone l1 l2 p Hp Hl1).
Qed.

(** *** More on the handlers *)

Lemma ten_digits_truthy (s : pystr) : ten_digits s = true -> str_truthy s = true.
Proof.
  unfold ten_digits, isdigit. by intros [[? _]%andb_true_iff _]%andb_true_iff.
Qed.

Lemma Record_init_valid_phone (name phone : pystr) :
  ten_digits phone = true ->
  Record_.init name (Some phone) None
  = inr (Record_.mk (Name.mk name) [Phone.mk phone] None).
Proof.
  intros Hp. unfold Record_.init, Record_.add_phone. unfold_m.
  by rewrite (ten_digits_truthy phone Hp), Phone_init_ten_digits, Hp.
Qed.

(** What the add handler does, for any two arguments: the record it stores
    has the phone when the phone is in the phone format and no phone when it
    is not. *)
Lemma add_contact_two_args (name phone : pystr) (book : AddressBook.t) :
  add_contact [name; phone] book
  = (inr (str "Contact added."),
     AddressBook.mk
       (Dict.set name
          (Record_.mk (Name.mk name)
             (if ten_digits phone then [Phone.mk phone] else []) None)
          (AddressBook.data book))).
Proof.
  unfold add_contact, add_contact_func, input_error.
  unfold AddressBook.add_record. unfold_m.
  destruct (ten_digits phone) eqn:Hp.
  - by rewrite (Record_init_valid_phone name phone Hp).
  - by rewrite (Record_init_malformed_phone name phone Hp).
Qed.

(** X6.  After [add] with a phone in the phone format, the book holds under
    the name a record with exactly that phone and no birthday, whatever it
    held under the name before; [phone] then answers with the phone and
    [show_birthday] with "No birthday set.". *)
Theorem add_contact_then_show_phone (name phone : pystr)
    (book : AddressBook.t) :
  ten_digits phone = true ->
  let book' :=
    AddressBook.mk
      (Dict.set name (Record_.mk (Name.mk name) [Phone.mk phone] None)
         (AddressBook.data book)) in
  add_contact [name; phone] book = (inr (str "Contact added."), book')
  /\ show_phone [name] book' = (inr phone, book')
  /\ show_birthday [name] book' = (inr (str "No birthday set."), book').
Proof.
  intros Hp book'. subst book'. split_and!.
  - by rewrite add_contact_two_args, Hp.
  - unfold show_phone, input_error, show_phone_func, AddressBook.find.
    unfold_m. simpl. by rewrite dict_get_set_eq.
  - unfold show_birthday, input_error, show_birthday_func, unpack1.
    unfold AddressBook.find. unfold_m. simpl. by rewrite dict_get_set_eq.
Qed.

(** X7.  After [add] with a malformed phone the contact exists without a
    phone: [phone] answers "Contact not found." although [show_birthday] finds
    the contact, and [change] cannot give it a phone, whatever the new
    value. *)
Theorem add_contact_malformed_then_lookup (name phone new_phone : pystr)
    (book : AddressBook.t) :
  ten_digits phone = false ->
  let book' := snd (add_contact [name; phone] book) in
  show_phone [name] book' = (inr contact_not_found_msg, book')
  /\ show_birthday [name] book' = (inr (str "No birthday set."), book')
  /\ snd (change_contact [name; new_phone] book') = book'
  /\ fst (change_contact [name; new_phone] book')
     <> inr (str "Contact updated.").
Proof.
  intros Hp book'. subst book'. rewrite add_contact_two_args, Hp. simpl.
  set (r := Record_.mk (Name.mk name) [] None).
  set (book' := AddressBook.mk (Dict.set name r (AddressBook.data book))).
  assert (Hget : Dict.get name (AddressBook.data book') = Some r)
    by apply dict_get_set_eq.
  split_and!.
  - unfold show_phone, input_error, show_phone_func, AddressBook.find.
    unfold_m. by rewrite Hget.
  - unfold show_birthday, input_error, show_birthday_func, unpack1.
    unfold AddressBook.find. unfold_m. by rewrite Hget.
  - unfold change_contact. rewrite input_error_state.
    unfold change_contact_func, AddressBook.find, AddressBook.on_contact.
    unfold phones_setitem. unfold_m. rewrite Hget.
    destruct (Phone.init new_phone); [done|]. simpl.
    f_equal. by apply dict_set_same.
  - unfold change_contact, input_error, change_contact_func.
    unfold AddressBook.find, AddressBook.on_contact, phones_setitem.
    unfold_m. rewrite Hget, Phone_init_ten_digits.
    destruct (ten_digits new_phone); simpl; by vm_compute.
Qed.

(** X8.  A wrong number of arguments never changes the book: [add] and
    [phone] answer with their own request, [change] with "Invalid command
    format.", [add_birthday] with its usage line. *)
Theorem handlers_wrong_arg_count (args : list pystr) (book : AddressBook.t) :
  (length args <> 2%nat ->
   add_contact args book = (inr (str "Give me name and phone please."), book)
   /\ change_contact args book = (inr invalid_command_msg, book)
   /\ add_birthday args book
      = (inr (str "Invalid command format. Use 'add_birthday [name] [DD.MM.YYYY]'."),
         book))
  /\ (length args <> 1%nat ->
      show_phone args book = (inr (str "Enter the contact name."), book)).
Proof.
  split.
  - intros Hlen. destruct args as [|a [|b [|c args]]]; try done.
  - intros Hlen. destruct args as [|a [|b args]]; try done.
Qed.

(** X9.  For a contact with at least one phone and a new value in the phone
    format, [change] replaces the first phone and keeps the others, the
    birthday, the place of the contact in the book and every other contact;
    [phone] then answers with the new value. *)
Theorem change_contact_updates_first_phone (book : AddressBook.t)
    (name new_phone : pystr) (c : Record_.t) (p : Phone.t)
    (ps : list Phone.t) :
  Dict.get name (AddressBook.data book) = Some c ->
  Record_.phones c = p :: ps ->
  ten_digits new_phone = true ->
  let c' := Record_.set_phones (Phone.mk new_phone :: ps) c in
  let book' := AddressBook.mk (Dict.set name c' (AddressBook.data book)) in
  change_contact [name; new_phone] book = (inr (str "Contact updated."), book')
  /\ show_phone [name] book' = (inr new_phone, book')
  /\ Dict.keys (AddressBook.data book') = Dict.keys (AddressBook.data book)
  /\ forall other, other <> name ->
       Dict.get other (AddressBook.data book')
       = Dict.get other (AddressBook.data book).
Proof.
  intros Hget Hps Hnew c' book'. subst c' book'. split_and!.
  - unfold change_contact, input_error, change_contact_func.
    unfold AddressBook.find, AddressBook.on_contact, phones_setitem.
    unfold_m. rewrite Hget, Phone_init_ten_digits, Hnew. simpl.
    by rewrite Hps.
  - unfold show_phone, input_error, show_phone_func, AddressBook.find.
    unfold_m. simpl. by rewrite dict_get_set_eq.
  - simpl. apply dict_keys_set_present. by rewrite Hget.
  - intros other Hne. simpl. by apply dict_get_set_ne.
Qed.

(** X10.  [change] for a name that the book does not hold answers "Contact
    not found."; for a known name and a malformed phone it answers with the
    validation message; the book is as it was in both cases. *)
Theorem change_contact_failures_keep_book (book : AddressBook.t)
    (name new_phone : pystr) :
  (Dict.get name (AddressBook.data book) = None ->
   change_contact [name; new_phone] book = (inr contact_not_found_msg, book))
  /\ (is_Some (Dict.get name (AddressBook.data book)) ->
      ten_digits new_phone = false ->
      change_contact [name; new_phone] book = (inr Phone.invalid_msg, book)).
Proof.
  unfold change_contact, input_error, change_contact_func.
  unfold AddressBook.find. unfold_m. split.
  - by intros ->.
  - intros [c ->] Hnew. by rewrite Phone_init_ten_digits, Hnew.
Qed.

(** X11.  For a contact without a birthday and a date text that the parser
    takes, [add_birthday] stores the text as written; [show_birthday] then
    answers with "Birthday: " and that text; the contact keeps its place and
    the other contacts are as they were. *)
Theorem add_birthday_then_show_birthday (book : AddressBook.t)
    (name date : pystr) (c : Record_.t) :
  Dict.get name (AddressBook.data book) = Some c ->
  Record_.birthday c = None ->
  accepted_date_text date ->
  let c' := Record_.set_birthday (Some (Birthday.mk date)) c in
  let book' := AddressBook.mk (Dict.set name c' (AddressBook.data book)) in
  add_birthday [name; date] book
  = (inr (str "Birthday added for " ++ name ++ str "."), book')
  /\ show_birthday [name] book' = (inr (str "Birthday: " ++ date), book')
  /\ Dict.keys (AddressBook.data book') = Dict.keys (AddressBook.data book)
  /\ forall other, other <> name ->
       Dict.get other (AddressBook.data book')
       = Dict.get other (AddressBook.data book).
Proof.
  intros Hget Hb Hdate c' book'. subst c' book'. split_and!.
  - unfold add_birthday, input_error, add_birthday_func.
    unfold AddressBook.find, AddressBook.on_contact, Record_.add_birthday.
    unfold_m. rewrite Hget, Hb, (Birthday_init_accepted date Hdate). done.
  - unfold show_birthday, input_error, show_birthday_func, unpack1.
    unfold AddressBook.find. unfold_m. simpl. by rewrite dict_get_set_eq.
  - simpl. apply dict_keys_set_present. by rewrite Hget.
  - intros other Hne. simpl. by apply dict_get_set_ne.
Qed.

(** X12.  [add_birthday] reports its failures as text and leaves the book
    as it was: an unknown name, a contact that has a birthday already, a date
    text that the parser does not take. *)
Theorem add_birthday_failures_keep_book (book : AddressBook.t)
    (name date : pystr) :
  (Dict.get name (AddressBook.data book) = None ->
   add_birthday [name; date] book
   = (inr (str "Contact " ++ name ++ str " not found."), book))
  /\ (forall c b,
        Dict.get name (AddressBook.data book) = Some c ->
        Record_.birthday c = Some b ->
        add_birthday [name; date] book
        = (inr (str "Birthday already set."), book))
  /\ (forall c,
        Dict.get name (AddressBook.data book) = Some c ->
        Record_.birthday c = None ->
        ~ accepted_date_text date ->
        add_birthday [name; date] book = (inr Birthday.invalid_msg, book)).
Proof.
  unfold add_birthday, input_error, add_birthday_func.
  unfold AddressBook.find, AddressBook.on_contact, Record_.add_birthday.
  unfold_m. destruct book as [d]. simpl. split_and!.
  - by intros ->.
  - intros c b Hget Hb. rewrite Hget, Hb. simpl.
    by rewrite (dict_set_same name c d Hget).
  - intros c Hget Hb Hdate.
    rewrite Hget, Hb, (Birthday_init_rejected date Hdate). simpl.
    by rewrite (dict_set_same name c d Hget).
Qed.

(** *** Handlers that only read *)

Lemma show_phone_state (args : list pystr) (book : AddressBook.t) :
  snd (show_phone args book) = book.
Proof.
  unfold show_phone. rewrite input_error_state.
  unfold show_phone_func, AddressBook.find. unfold_m.
  destruct args as [|name [|? ?]]; try done.
  destruct (Dict.get name (AddressBook.data book)) as [c|]; [|done].
  by destruct (Record_.phones c).
Qed.

Lemma show_birthday_state (args : list pystr) (book : AddressBook.t) :
  snd (show_birthday args book) = book.
Proof.
  unfold show_birthday. rewrite input_error_state.
  unfold show_birthday_func, unpack1, AddressBook.find. unfold_m.
  destruct args as [|name [|? ?]]; try done.
  by destruct (Dict.get name (AddressBook.data book)).
Qed.

Lemma show_all_state (book : AddressBook.t) : snd (show_all book) = book.
Proof.
  unfold show_all. rewrite input_error_state.
  unfold show_all_func. unfold_m. by destruct (AddressBook.data book).
Qed.

Lemma get_birthdays_per_week_state (now : datetime) (book : AddressBook.t) :
  snd (AddressBook.get_birthdays_per_week now book) = book.
Proof.
  unfold AddressBook.get_birthdays_per_week. unfold_m.
  destruct (add_days now _) as [?|start]; [done|].
  by destruct (add_days start 6).
Qed.

Lemma birthdays_state (now : datetime) (book : AddressBook.t) :
  snd (birthdays now book) = book.
Proof.
  unfold birthdays. rewrite input_error_state. unfold birthdays_func, bind.
  pose proof (get_birthdays_per_week_state now book) as H.
  destruct (AddressBook.get_birthdays_per_week now book) as [[e|l] b];
    simpl in H; subst; [done|]. by destruct l.
Qed.

(** X13.  The handlers [phone], [show_birthday], [all] and [birthdays] never
    change the book, whatever their arguments and whether or not they
    fail. *)
Theorem read_only_handlers_keep_book (args : list pystr) (now : datetime)
    (book : AddressBook.t) :
  snd (show_phone args book) = book
  /\ snd (show_birthday args book) = book
  /\ snd (show_all book) = book
  /\ snd (birthdays now book) = book.
Proof.
  split_and!.
  - apply show_phone_state.
  - apply show_birthday_state.
  - apply show_all_state.
  - apply birthdays_state.
Qed.

(** *** More on dictionaries *)

Section DictMore.
Context {V : Type}.
Implicit Types (d : Dict.t V) (k : pystr) (v : V).

Lemma dict_keys_del_subset k k' d :
  k' ∈ Dict.keys (Dict.del k d) -> k' ∈ Dict.keys d.
Proof.
  unfold Dict.keys. induction d as [|[k0 v0] d IH]; csimpl; [done|].
  destruct (decide (k0 = k)); csimpl.
  - intros H. by right.
  - intros [->|H]%elem_of_cons; [by left|]. right. by apply IH.
Qed.

Lemma dict_del_NoDup k d :
  NoDup (Dict.keys d) -> NoDup (Dict.keys (Dict.del k d)).
Proof.
  unfold Dict.keys. induction d as [|[k0 v0] d IH]; csimpl; [done|].
  intros [Hk0 Hd]%list.NoDup_cons.
  destruct (decide (k0 = k)); csimpl; [done|].
  apply list.NoDup_cons. split; [|by apply IH].
  intros H. apply Hk0. by apply (dict_keys_del_subset k).
Qed.

Lemma dict_get_del_eq k d :
  NoDup (Dict.keys d) -> Dict.get k (Dict.del k d) = None.
Proof.
  unfold Dict.keys. induction d as [|[k0 v0] d IH]; csimpl; [done|].
  intros [Hk0 Hd]%list.NoDup_cons.
  destruct (decide (k0 = k)) as [->|Hne]; simpl.
  - by apply dict_get_None_keys.
  - rewrite decide_False by done. by apply IH.
Qed.

Lemma dict_get_del_ne k k' d :
  k <> k' -> Dict.get k' (Dict.del k d) = Dict.get k' d.
Proof.
  intros Hne. induction d as [|[k0 v0] d IH]; simpl; [done|].
  destruct (decide (k0 = k)) as [->|Hne0]; simpl.
  - by rewrite decide_False.
  - destruct (decide (k0 = k')); [done|]. exact IH.
Qed.

Lemma dict_entries_set (Q : pystr * V -> Prop) k v d :
  Q (k, v) -> Forall Q d -> Forall Q (Dict.set k v d).
Proof.
  intros Hv. induction d as [|[k0 v0] d IH]; simpl.
  - intros _. by constructor.
  - intros [H0 Hd]%Forall_cons_1.
    destruct (decide (k0 = k)) as [->|Hne]; constructor; auto.
Qed.

Lemma dict_entries_del (Q : pystr * V -> Prop) k d :
  Forall Q d -> Forall Q (Dict.del k d).
Proof.
  induction d as [|[k0 v0] d IH]; simpl; [done|].
  intros [H0 Hd]%Forall_cons_1.
  destruct (decide (k0 = k)); [done|]. constructor; auto.
Qed.

Lemma dict_get_entries (Q : pystr * V -> Prop) k v d :
  Forall Q d -> Dict.get k d = Some v -> Q (k, v).
Proof.
  induction d as [|[k0 v0] d IH]; simpl; [done|].
  intros [H0 Hd]%Forall_cons_1.
  destruct (decide (k0 = k)) as [->|Hne]; [by intros [= <-]|]. by apply IH.
Qed.
End DictMore.

(** X14.  [delete] of a name that the book holds removes that entry and no
    other: [find] no longer finds the name, every other name is found as
    before; for a name that the book does not hold the book stays as it was.
    The answer says which of the two happened. *)
Theorem delete_then_find (book : AddressBook.t) (name : pystr) :
  NoDup (Dict.keys (AddressBook.data book)) ->
  let book' := snd (AddressBook.delete name book) in
  fst (AddressBook.find name book') = inr None
  /\ (forall other, other <> name ->
        fst (AddressBook.find other book') = fst (AddressBook.find other book))
  /\ (is_Some (Dict.get name (AddressBook.data book)) ->
      fst (AddressBook.delete name book)
      = inr (str "Contact " ++ name ++ str " deleted."))
  /\ (Dict.get name (AddressBook.data book) = None ->
      AddressBook.delete name book
      = (inr (str "Contact " ++ name ++ str " not found."), book)).
Proof.
  intros Hnd book'. subst book'.
  unfold AddressBook.delete, AddressBook.find, Dict.contains. unfold_m.
  destruct (Dict.get name (AddressBook.data book)) as [c|] eqn:Hget; simpl.
  - split_and!.
    + by rewrite dict_get_del_eq.
    + intros other Hne. by rewrite dict_get_del_ne.
    + done.
    + done.
  - split_and!.
    + by rewrite Hget.
    + done.
    + by intros [? ?].
    + done.
Qed.

(** X15.  [add_record] under a new name puts the record last in the order
    of the book; under a name that the book holds it keeps the order.  The
    records under other names are found as before. *)
Theorem add_record_order_and_frame (book : AddressBook.t) (r : Record_.t) :
  let key := Name.value (Record_.name r) in
  let book' := snd (AddressBook.add_record r book) in
  Dict.keys (AddressBook.data book')
  = (if Dict.contains key (AddressBook.data book)
     then Dict.keys (AddressBook.data book)
     else Dict.keys (AddressBook.data book) ++ [key])
  /\ forall other, other <> key ->
       fst (AddressBook.find other book') = fst (AddressBook.find other book).
Proof.
  intros key book'. subst key book'.
  unfold AddressBook.add_record, AddressBook.find, Dict.contains. unfold_m.
  simpl. split.
  - destruct (Dict.get _ (AddressBook.data book)) eqn:Hget.
    + apply dict_keys_set_present. by rewrite Hget.
    + by apply dict_keys_set_absent.
  - intros other Hne. by rewrite dict_get_set_ne.
Qed.

(** *** Invariants of the book *)

Lemma on_contact_state {A} (key : pystr) (c : Record_.t)
    (method : M Record_.t A) (book : AddressBook.t) :
  snd (AddressBook.on_contact key c method book)
  = AddressBook.mk (Dict.set key (snd (method c)) (AddressBook.data book)).
Proof. unfold AddressBook.on_contact. by destruct (method c). Qed.

Lemma find_run (name : pystr) (book : AddressBook.t) :
  AddressBook.find name book
  = (inr (Dict.get name (AddressBook.data book)), book).
Proof. reflexivity. Qed.

Lemma bind_ret_tt_state_gen {S A B} (m : M S A) (b : B) (s : S) :
  snd ((m ;;; ret b) s) = snd (m s).
Proof. unfold bind, ret. by destruct (m s) as [[?|?] ?]. Qed.

Lemma try_except_ValueError_state {S} (m : M S pystr) (s : S) :
  snd (try_except m except_ValueError_str s) = snd (m s).
Proof.
  unfold try_except, except_ValueError_str, ret.
  by destruct (m s) as [[[]|] ?].
Qed.

(** An invariant of the book holds after every operation when it survives
    the three ways in which the data change: a fresh record is stored under
    its name, an entry is deleted, a stored record is replaced by what a
    method made of it ([R] relates the two). *)
Section Invariant.
Variable Inv : AddressBook.t -> Prop.
Variable R : Record_.t -> Record_.t -> Prop.

Hypothesis Inv_add :
  forall d name phone birthday r,
    Inv (AddressBook.mk d) ->
    Record_.init name phone birthday = inr r ->
    Inv (AddressBook.mk (Dict.set (Name.value (Record_.name r)) r d)).
Hypothesis Inv_del :
  forall d name, Inv (AddressBook.mk d) -> Inv (AddressBook.mk (Dict.del name d)).
Hypothesis Inv_update :
  forall d key c c',
    Inv (AddressBook.mk d) -> Dict.get key d = Some c -> R c c' ->
    Inv (AddressBook.mk (Dict.set key c' d)).
Hypothesis R_add_phone :
  forall phone c, R c (snd (Record_.add_phone phone c)).
Hypothesis R_edit_phone :
  forall old new c, R c (snd (Record_.edit_phone old new c)).
Hypothesis R_remove_phone :
  forall phone c, R c (snd (Record_.remove_phone phone c)).
Hypothesis R_setitem :
  forall value c,
    ten_digits (Phone.value value) = true ->
    R c (snd (phones_setitem 0 value c)).
Hypothesis R_add_birthday :
  forall date c, R c (snd (Record_.add_birthday date c)).

Lemma call_method_invariant {A} (name : pystr) (method : M Record_.t A)
    (book : AddressBook.t) :
  (forall c, R c (snd (method c))) ->
  Inv book -> Inv (snd (call_method name method book)).
Proof.
  intros Hm Hb. destruct book as [d]. unfold call_method.
  unfold bind at 1. rewrite find_run. simpl.
  destruct (Dict.get name d) as [c|] eqn:Hc; [|done].
  rewrite bind_ret_tt_state, on_contact_state. simpl. eauto.
Qed.

Lemma run_op_invariant (o : op) (book : AddressBook.t) :
  Inv book -> Inv (snd (run_op o book)).
Proof.
  intros Hb. destruct book as [d].
  destruct o as [args|args|args|name phone birthday|name|name phone
                 |name old new|name phone]; simpl.
  - rewrite bind_ret_tt_state. unfold add_contact.
    rewrite input_error_state. unfold add_contact_func.
    destruct args as [|name [|phone [|? ?]]]; try done.
    unfold bind at 1. unfold lift.
    destruct (Record_.init name (Some phone) None) as [e|r] eqn:Hr; [done|].
    rewrite bind_ret_tt_state_gen. unfold AddressBook.add_record. unfold_m.
    simpl. eauto.
  - rewrite bind_ret_tt_state. unfold change_contact.
    rewrite input_error_state. unfold change_contact_func.
    destruct args as [|name [|new_phone [|? ?]]]; try done.
    unfold bind at 1. rewrite find_run. simpl.
    destruct (Dict.get name d) as [c|] eqn:Hc; [|done].
    unfold bind at 1. unfold lift. rewrite Phone_init_ten_digits.
    destruct (ten_digits new_phone) eqn:Hp; [|done].
    rewrite bind_ret_tt_state_gen, on_contact_state. simpl.
    apply (Inv_update d name c); [done..|]. by apply R_setitem.
  - rewrite bind_ret_tt_state. unfold add_birthday.
    rewrite input_error_state. unfold add_birthday_func.
    destruct args as [|name [|date [|? ?]]]; try done.
    unfold bind at 1. rewrite find_run. simpl.
    destruct (Dict.get name d) as [c|] eqn:Hc; [|done].
    rewrite try_except_ValueError_state, bind_ret_tt_state_gen.
    rewrite on_contact_state. simpl. eauto.
  - unfold bind, lift.
    destruct (Record_.init name phone birthday) as [e|r] eqn:Hr; [done|].
    unfold AddressBook.add_record. unfold_m. simpl. eauto.
  - rewrite bind_ret_tt_state. unfold AddressBook.delete. unfold_m. simpl.
    destruct (Dict.contains name d); simpl; eauto.
  - apply call_method_invariant; eauto.
  - apply call_method_invariant; eauto.
  - apply call_method_invariant; eauto.
Qed.

Lemma run_ops_invariant (ops : list op) (book : AddressBook.t) :
  Inv book -> Inv (run_ops ops book).
Proof.
  unfold run_ops. revert book.
  induction ops as [|o ops IH]; intros book Hb; simpl; [done|].
  apply IH. by apply run_op_invariant.
Qed.
End Invariant.

(** The methods leave the name of the record alone. *)

Lemma add_phone_name (phone : pystr) (c : Record_.t) :
  Record_.name (snd (Record_.add_phone phone c)) = Record_.name c.
Proof.
  unfold Record_.add_phone. unfold_m. by destruct (Phone.init phone) as [[]|].
Qed.

Lemma edit_phone_name (old_phone new_phone : pystr) (c : Record_.t) :
  Record_.name (snd (Record_.edit_phone old_phone new_phone c))
  = Record_.name c.
Proof.
  unfold Record_.edit_phone. unfold_m.
  destruct (Record_.first_with_value old_phone (Record_.phones c))
    as [[i p]|]; [|done].
  by destruct (Phone.init new_phone) as [[]|].
Qed.

Lemma remove_phone_name (phone : pystr) (c : Record_.t) :
  Record_.name (snd (Record_.remove_phone phone c)) = Record_.name c.
Proof.
  unfold Record_.remove_phone. unfold_m.
  by destruct (Record_.first_with_value phone (Record_.phones c))
    as [[i p]|].
Qed.

Lemma phones_setitem_name (i : nat) (value : Phone.t) (c : Record_.t) :
  Record_.name (snd (phones_setitem i value c)) = Record_.name c.
Proof.
  unfold phones_setitem. unfold_m.
  by destruct (decide (i < length (Record_.phones c))%nat).
Qed.

Lemma add_birthday_name (date : pystr) (c : Record_.t) :
  Record_.name (snd (Record_.add_birthday date c)) = Record_.name c.
Proof.
  unfold Record_.add_birthday. unfold_m.
  destruct (Record_.birthday c); [done|].
  by destruct (Birthday.init date).
Qed.

Lemma run_ops_keys_ok (ops : list op) (book : AddressBook.t) :
  book_keys_ok book -> book_keys_ok (run_ops ops book).
Proof.
  apply (run_ops_invariant book_keys_ok
           (fun c c' => Record_.name c' = Record_.name c)).
  - intros d name phone birthday r [Hnd Hq] _. split; simpl in *.
    + by apply dict_set_NoDup.
    + by apply dict_entries_set.
  - intros d name [Hnd Hq]. split; simpl in *.
    + by apply dict_del_NoDup.
    + by apply dict_entries_del.
  - intros d key c c' [Hnd Hq] Hget Hname. split; simpl in *.
    + by apply dict_set_NoDup.
    + apply dict_entries_set; [|done]. simpl. rewrite Hname.
      by apply (dict_get_entries _ key c d Hq).
  - intros. apply add_phone_name.
  - intros. apply edit_phone_name.
  - intros. apply remove_phone_name.
  - intros. apply phones_setitem_name.
  - intros. apply add_birthday_name.
Qed.

(** X16.  Whatever sequence of handler calls and method calls a client runs
    on a book whose keys are distinct and are the names of the records they
    lead to, the book it ends with is such a book again; [find] then returns
    only records that bear the name asked for. *)
Theorem book_keys_invariant (ops : list op) (book : AddressBook.t) :
  book_keys_ok book ->
  book_keys_ok (run_ops ops book)
  /\ forall name r,
       fst (AddressBook.find name (run_ops ops book)) = inr (Some r) ->
       Name.value (Record_.name r) = name.
Proof.
  intros Hb. pose proof (run_ops_keys_ok ops book Hb) as Hk.
  split; [exact Hk|].
  intros name r. rewrite find_run. simpl. intros [= Hget].
  destruct Hk as [_ Hq].
  pose proof (dict_get_entries _ name r _ Hq Hget) as Hn. simpl in Hn.
  by rewrite Hn.
Qed.

(** X17.  Whatever sequence of handler calls and method calls a client runs
    on a book whose stored birthdays are texts that the parser takes, the
    birthdays of the book it ends with are such texts: a birthday is stored
    only by the [Birthday] constructor. *)
Theorem birthdays_parse_invariant (ops : list op) (book : AddressBook.t) :
  book_birthdays_ok book -> book_birthdays_ok (run_ops ops book).
Proof.
  unfold run_ops. revert book.
  induction ops as [|o ops IH]; intros book Hbook; simpl; [exact Hbook|].
  apply IH. by apply (run_ops_birthdays_ok [o]).
Qed.

(** *** The listing *)

Lemma in_ranges_disjoint (rs1 rs2 : list (N * N)) (c : N) :
  ranges_disjoint rs1 rs2 = true ->
  in_ranges rs1 c = true -> in_ranges rs2 c = false.
Proof.
  unfold ranges_disjoint, in_ranges. intros Hd H1.
  apply existsb_exists in H1 as (r1 & Hin1 & Hc1).
  rewrite forallb_forall in Hd. specialize (Hd r1 Hin1).
  rewrite forallb_forall in Hd.
  destruct (existsb (in_range c) rs2) eqn:H2; [|done].
  apply existsb_exists in H2 as (r2 & Hin2 & Hc2).
  specialize (Hd r2 Hin2). unfold in_range in *.
  apply andb_true_iff in Hc1 as [?%N.leb_le ?%N.leb_le].
  apply andb_true_iff in Hc2 as [?%N.leb_le ?%N.leb_le].
  apply orb_true_iff in Hd as [?%N.ltb_lt|?%N.ltb_lt]; lia.
Qed.

Lemma isdecimal_not_space (c : N) :
  isdecimal_char c = true -> isspace_char c = false.
Proof. by apply in_ranges_disjoint. Qed.

Lemma rstrip_newline (s : pystr) :
  ends_nonspace s -> rstrip (s ++ newline) = s.
Proof.
  intros (s' & c & -> & Hc). unfold rstrip, newline.
  rewrite !reverse_app. simpl. rewrite Hc. 
  change (c :: reverse s') with (reverse [c] ++ reverse s').
  by rewrite <- reverse_app, reverse_involutive.
Qed.

Lemma ends_nonspace_app (s t : pystr) : ends_nonspace t -> ends_nonspace (s ++ t).
Proof.
  intros (t' & c & -> & Hc). exists (s ++ t'), c. by rewrite app_assoc.
Qed.

Lemma year_text_ends_nonspace (y : pystr) :
  year_text y = true -> ends_nonspace y.
Proof.
  destruct y as [|a [|b [|c [|d [|? ?]]]]]; try done. cbn [year_text].
  intros H. split_text. exists [a; b; c], d. split; [done|].
  by apply isdecimal_not_space.
Qed.

Lemma birthday_text_ends_nonspace (s : pystr) (dt : datetime) :
  strptime_dmY s = inr dt -> ends_nonspace s.
Proof.
  intros (d & m & y & -> & _ & _ & Hy & _)%strptime_dmY_spec.
  apply ends_nonspace_app, (ends_nonspace_app [dot]), ends_nonspace_app.
  by apply (ends_nonspace_app [dot]), year_text_ends_nonspace.
Qed.

Lemma to_str_ends_nonspace (r : Record_.t) :
  birthday_ok r -> ends_nonspace (Record_.to_str r).
Proof.
  intros Hr. unfold Record_.to_str. rewrite !app_assoc.
  apply ends_nonspace_app. unfold Record_.show_birthday.
  unfold birthday_ok in Hr. destruct (Record_.birthday r) as [b|].
  - destruct Hr as [dt Hdt]. apply ends_nonspace_app.
    by apply (birthday_text_ends_nonspace _ dt).
  - by exists (str "No birthday set"), 46%N.
Qed.

Lemma join_cons (sep x : pystr) (l : list pystr) :
  l <> [] -> join sep (x :: l) = x ++ sep ++ join sep l.
Proof. by destruct l. Qed.

Lemma join_ends_nonspace (sep : pystr) (l : list pystr) :
  l <> [] -> Forall ends_nonspace l -> ends_nonspace (join sep l).
Proof.
  induction l as [|x l IH]; [done|]. intros _ [Hx Hl]%Forall_cons_1.
  destruct l as [|y l]; [done|].
  rewrite join_cons by done. rewrite app_assoc.
  apply ends_nonspace_app. by apply IH.
Qed.

(** What the loop of [show_all] builds: every line with a newline after it. *)
Lemma show_all_fold (l : list Record_.t) (acc : pystr) :
  fold_left (fun result record => result ++ (Record_.to_str record ++ newline))
    l acc
  = acc ++ concat ((fun record => Record_.to_str record ++ newline) <$> l).
Proof.
  revert acc. induction l as [|r l IH]; intros acc.
  - simpl. by rewrite app_nil_r.
  - cbn [fold_left]. rewrite IH, fmap_cons. cbn [concat].
    by rewrite <- !app_assoc.
Qed.

Lemma concat_lines_join (l : list Record_.t) :
  l <> [] ->
  concat ((fun record => Record_.to_str record ++ newline) <$> l)
  = join newline (Record_.to_str <$> l) ++ newline.
Proof.
  induction l as [|r l IH]; [done|]. intros _. destruct l as [|r' l].
  - rewrite !fmap_cons, !fmap_nil. cbn [concat join]. by rewrite app_nil_r.
  - rewrite fmap_cons. cbn [concat]. rewrite IH by done.
    rewrite (fmap_cons Record_.to_str r). rewrite join_cons by done.
    by rewrite <- !app_assoc.
Qed.

(** X18.  [all] on a book without contacts answers "No contacts
    available.".  On any other book whose stored birthdays are texts that the
    parser takes, it answers with the lines of the records in the order of
    the book, a newline between two lines and none after the last: the final
    [rstrip] takes away the last newline and nothing of the last line. *)
Theorem show_all_lines (book : AddressBook.t) :
  book_birthdays_ok book ->
  show_all book
  = (inr (match AddressBook.data book with
          | [] => str "No contacts available."
          | _ :: _ =>
              join newline
                (Record_.to_str <$> Dict.values (AddressBook.data book))
          end),
     book).
Proof.
  intros Hb. unfold show_all, input_error, show_all_func. unfold_m.
  unfold book_birthdays_ok in Hb.
  destruct (AddressBook.data book) as [|kv d] eqn:Hd; [done|].
  do 2 f_equal.
  assert (Hl : Dict.values (kv :: d) <> []) by done.
  revert Hb Hl. generalize (Dict.values (kv :: d)). intros l Hb Hl.
  rewrite show_all_fold, concat_lines_join by done.
  rewrite app_nil_l. apply rstrip_newline, join_ends_nonspace.
  - by destruct l.
  - apply Forall_fmap. eapply Forall_impl; [|exact Hb].
    intros r Hr. by apply to_str_ends_nonspace.
Qed.

(** *** More on the birthday query *)

(** X19.  The window starts on a Sunday, at the time of day of [now], 7 to
    13 days after [now]: 7 days when [now] is a Sunday, 13 when it is a
    Monday. *)
Theorem window_start_is_sunday (now : datetime) :
  (forall next_week_start,
     add_days now ((6 - weekday now) + 7) = inr next_week_start ->
     next_week_start = window_start now)
  /\ weekday (window_start now) = 6
  /\ tod (window_start now) = tod now
  /\ ordinal (window_start now) = ordinal now + 13 - weekday now
  /\ ordinal now + 7 <= ordinal (window_start now) <= ordinal now + 13.
Proof.
  pose proof (weekday_bounds now) as Hw.
  split.
  { intros start.
    destruct (add_days_cases now (6 - weekday now + 7)) as [[_ ->]|[_ ->]];
      [|done].
    by intros [= <-]. }
  unfold window_start, weekday in *. simpl.
  split_and!; try done; try lia.
  Z.div_mod_to_equations. lia.
Qed.

Lemma strptime_dmY_midnight (s : pystr) (dt : datetime) :
  strptime_dmY s = inr dt -> tod dt = 0.
Proof. by intros (d & m & y & _ & _ & _ & _ & _ & ->)%strptime_dmY_spec. Qed.

(** A stored birthday is read as midnight of its day.  So it lies in the
    window exactly when its day is after the day on which the window starts
    and not after the day on which it ends; the day of the start counts only
    when [now] is midnight to the microsecond. *)
Lemma in_window_days (now : datetime) (s : pystr) :
  0 <= tod now ->
  in_window now s = true
  <-> exists dt,
        strptime_dmY s = inr dt
        /\ ordinal (window_start now) + (if tod now =? 0 then 0 else 1)
           <= ordinal dt
        /\ ordinal dt <= ordinal (window_start now) + 6.
Proof.
  intros Ht. unfold in_window.
  destruct (strptime_dmY s) as [e|dt] eqn:Hs.
  - split; [done|]. by intros (dt & ? & _).
  - pose proof (strptime_dmY_midnight s dt Hs) as H0.
    destruct dt as [o t]. simpl in H0. subst t.
    unfold datetime_le, window_end, window_start. simpl.
    rewrite andb_true_iff, !orb_true_iff, !andb_true_iff.
    rewrite !Z.ltb_lt, !Z.eqb_eq, !Z.leb_le. split.
    + intros H. exists (mk_datetime o 0). split; [done|]. simpl.
      destruct (tod now =? 0) eqn:Hm;
        [apply Z.eqb_eq in Hm|apply Z.eqb_neq in Hm]; lia.
    + intros (dt & [= <-] & H). simpl in H.
      destruct (tod now =? 0) eqn:Hm;
        [apply Z.eqb_eq in Hm|apply Z.eqb_neq in Hm]; lia.
Qed.

(** X20.  The query returns the birthdays of six days: with the window
    starting on a Sunday at the time of day of [now], a birthday is returned
    exactly when its day, year included, is one of the Monday to Saturday
    after that Sunday.  The Sunday itself counts as a seventh day only when
    [now] is midnight to the microsecond. *)
Theorem upcoming_birthdays_days (now : datetime) (book : AddressBook.t) :
  0 <= tod now ->
  window_representable now ->
  book_birthdays_ok book ->
  exists l,
    AddressBook.get_birthdays_per_week now book = (inr l, book)
    /\ forall name value,
         (name, value) ∈ l
         <-> exists r dt,
               r ∈ Dict.values (AddressBook.data book)
               /\ Name.value (Record_.name r) = name
               /\ Record_.birthday r = Some (Birthday.mk value)
               /\ strptime_dmY value = inr dt
               /\ ordinal now + 13 - weekday now
                  + (if tod now =? 0 then 0 else 1) <= ordinal dt
               /\ ordinal dt <= ordinal now + 19 - weekday now.
Proof.
  intros Ht Hnow Hbook. exists (upcoming_spec now book). split.
  - unfold AddressBook.get_birthdays_per_week, bind, get, lift.
    rewrite (window_start_add_days now Hnow), (window_end_add_days now Hnow).
    by rewrite birthdays_loop_spec.
  - intros name value. rewrite upcoming_spec_elem.
    assert (Hs : ordinal (window_start now) = ordinal now + 13 - weekday now)
      by (unfold window_start; simpl; lia).
    split.
    + intros (r & Hr & Hn & Hb & Hw).
      apply (in_window_days now value Ht) in Hw as (dt & Hdt & H1 & H2).
      exists r, dt. split_and!; try done; lia.
    + intros (r & dt & Hr & Hn & Hb & Hdt & H1 & H2).
      exists r. split_and!; try done.
      apply (in_window_days now value Ht). exists dt.
      split_and!; try done; lia.
Qed.

Lemma upcoming_birthdays_days_witness :
  0 <= tod sample_now
  /\ window_representable sample_now
  /\ book_birthdays_ok sample_book
  /\ exists l,
       AddressBook.get_birthdays_per_week sample_now sample_book
       = (inr l, sample_book)
       /\ forall name value,
            (name, value) ∈ l
            <-> exists r dt,
                  r ∈ Dict.values (AddressBook.data sample_book)
                  /\ Name.value (Record_.name r) = name
                  /\ Record_.birthday r = Some (Birthday.mk value)
                  /\ strptime_dmY value = inr dt
                  /\ ordinal sample_now + 13 - weekday sample_now
                     + (if tod sample_now =? 0 then 0 else 1) <= ordinal dt
                  /\ ordinal dt <= ordinal sample_now + 19 - weekday sample_now.
Proof.
  assert (Ht : 0 <= tod sample_now) by (by vm_compute).
  assert (Hn : window_representable sample_now) by (split; by vm_compute).
  assert (Hb : book_birthdays_ok sample_book).
  { repeat constructor; eexists; vm_compute; reflexivity. }
  split; [exact Ht|]. split; [exact Hn|]. split; [exact Hb|].
  exact (upcoming_birthdays_days sample_now sample_book Ht Hn Hb).
Defined.

(** Whatever the loop returns was in the list at the start or is the entry
    of a record whose birthday lies between the two bounds. *)
Lemma birthdays_loop_entries (start stop : datetime)
    (records : list Record_.t) (acc l : list (pystr * pystr)) :
  AddressBook.birthdays_loop start stop records acc = inr l ->
  forall x, x ∈ l ->
    x ∈ acc
    \/ exists dt,
         strptime_dmY (snd x) = inr dt
         /\ datetime_le start dt = true /\ datetime_le dt stop = true.
Proof.
  revert acc. induction records as [|r records IH]; intros acc; simpl.
  - intros [= <-] x Hx. by left.
  - destruct (Record_.birthday r) as [b|]; [|by apply IH].
    destruct (strptime_dmY (Birthday.value b)) as [e|dt] eqn:Hs; [done|].
    destruct (datetime_le start dt && datetime_le dt stop) eqn:Hw;
      [|by apply IH].
    intros Hl x Hx. destruct (IH _ Hl x Hx) as [Hacc|?]; [|by right].
    apply elem_of_app in Hacc as [?|Hx']; [by left|].
    apply list_elem_of_singleton in Hx'. subst x. right. exists dt. simpl.
    by apply andb_true_iff in Hw as [? ?].
Qed.

(** X21.  Every birthday that the query returns is a date 7 to 19 days
    after the day of [now], year included: a birthday stored with a date that
    is not in the future is never returned. *)
Theorem upcoming_only_future_dates (now : datetime) (book book' : AddressBook.t)
    (l : list (pystr * pystr)) :
  AddressBook.get_birthdays_per_week now book = (inr l, book') ->
  forall name value, (name, value) ∈ l ->
    exists dt,
      strptime_dmY value = inr dt
      /\ ordinal now + 7 <= ordinal dt <= ordinal now + 19.
Proof.
  unfold AddressBook.get_birthdays_per_week, bind, get, lift.
  destruct (add_days_cases now (6 - weekday now + 7)) as [[_ ->]|[_ ->]];
    [|done].
  set (start := mk_datetime (ordinal now + (6 - weekday now + 7)) (tod now)).
  destruct (add_days_cases start 6) as [[_ ->]|[_ ->]]; [|done].
  intros [= Hl _] name value Hin.
  destruct (birthdays_loop_entries _ _ _ _ _ Hl _ Hin) as [Hnil|Hdt].
  - by apply elem_of_nil in Hnil.
  - destruct Hdt as (dt & Hs & H1 & H2). exists dt. split; [done|].
    pose proof (weekday_bounds now) as Hw.
    unfold datetime_le in H1, H2. subst start. simpl in *.
    apply orb_true_iff in H1, H2.
    rewrite !andb_true_iff, !Z.ltb_lt, !Z.eqb_eq, !Z.leb_le in H1, H2. lia.
Qed.

Lemma upcoming_only_future_dates_witness :
  AddressBook.get_birthdays_per_week sample_now sample_book
  = (inr [(str "ann", str "16.11.2026")], sample_book)
  /\ forall name value, (name, value) ∈ [(str "ann", str "16.11.2026")] ->
       exists dt,
         strptime_dmY value = inr dt
         /\ ordinal sample_now + 7 <= ordinal dt <= ordinal sample_now + 19.
Proof.
  assert (H : AddressBook.get_birthdays_per_week sample_now sample_book
              = (inr [(str "ann", str "16.11.2026")], sample_book))
    by reflexivity.
  split; [exact H|].
  exact (upcoming_only_future_dates sample_now sample_book sample_book _ H).
Defined.

(** X22.  When the window exists and the stored birthdays are parseable,
    [birthdays] answers "No upcoming birthdays in the next week." if no
    birthday lies in the window, and otherwise with one line "name: date"
    for each that does, in the order of the book. *)
Theorem birthdays_output (now : datetime) (book : AddressBook.t) :
  window_representable now ->
  book_birthdays_ok book ->
  birthdays now book
  = (inr (match upcoming_spec now book with
          | [] => str "No upcoming birthdays in the next week."
          | _ :: _ =>
              join newline
                ((fun nd => fst nd ++ str ": " ++ snd nd)
                   <$> upcoming_spec now book)
          end),
     book).
Proof.
  intros Hnow Hbook.
  unfold birthdays, input_error, birthdays_func, try_except.
  unfold AddressBook.get_birthdays_per_week, bind, get, lift.
  rewrite (window_start_add_days now Hnow), (window_end_add_days now Hnow).
  rewrite birthdays_loop_spec by done. rewrite app_nil_l.
  fold (upcoming_spec now book).
  by destruct (upcoming_spec now book).
Qed.

Lemma birthdays_output_witness :
  window_representable sample_now
  /\ book_birthdays_ok sample_book
  /\ birthdays sample_now sample_book
     = (inr (str "ann: 16.11.2026"), sample_book).
Proof.
  assert (Hn : window_representable sample_now) by (split; by vm_compute).
  assert (Hb : book_birthdays_ok sample_book).
  { repeat constructor; eexists; vm_compute; reflexivity. }
  split; [exact Hn|]. split; [exact Hb|].
  exact (birthdays_output sample_now sample_book Hn Hb).
Defined.

Lemma get_birthdays_per_week_overflow_witness :
  MAXORDINAL < ordinal (window_end (mk_datetime 3652055 0))
  /\ exists msg,
       AddressBook.get_birthdays_per_week (mk_datetime 3652055 0) sample_book
       = (inl (OverflowError msg), sample_book)
       /\ birthdays (mk_datetime 3652055 0) sample_book
          = (inl (OverflowError msg), sample_book).
Proof.
  assert (H : MAXORDINAL < ordinal (window_end (mk_datetime 3652055 0)))
    by (by vm_compute).
  split; [exact H|].
  exact (get_birthdays_per_week_overflow (mk_datetime 3652055 0) sample_book H).
Defined.

(** *** Reading a command line *)

Lemma split_from_words (w s : pystr) :
  Forall (fun c => isspace_char c = false) w ->
  Forall word (split_from w s).
Proof.
  revert w. induction s as [|c s IH]; intros w Hw; simpl.
  - destruct w as [|a w]; simpl; [constructor|].
    constructor; [by split|constructor].
  - destruct (isspace_char c) eqn:Hc.
    + destruct w as [|a w]; simpl; [by apply IH|].
      constructor; [by split|]. by apply IH.
    + apply IH. apply Forall_app. split; [done|]. by constructor.
Qed.

Lemma split_from_nil (w s : pystr) :
  split_from w s = [] <-> w = [] /\ blank s.
Proof.
  unfold blank. revert w. induction s as [|c s IH]; intros w; simpl.
  - destruct w; simpl; split; try done. by intros [? _].
  - destruct (isspace_char c) eqn:Hc.
    + destruct w as [|a w]; simpl.
      * rewrite IH. split; intros [_ H]; split; try done.
        -- by constructor.
        -- by apply Forall_cons_1 in H as [_ ?].
      * split; [done|]. by intros [? _].
    + rewrite IH. split.
      * intros [H _]. by destruct w.
      * intros [_ [H _]%Forall_cons_1]. congruence.
Qed.

Lemma lstrip_word (w : pystr) : word w -> lstrip w = w.
Proof.
  intros [Hne Hw]. destruct w as [|c w]; [done|].
  apply Forall_cons_1 in Hw as [Hc _]. simpl. by rewrite Hc.
Qed.

Lemma strip_word (w : pystr) : word w -> strip w = w.
Proof.
  intros Hw. unfold strip, rstrip. rewrite (lstrip_word w Hw).
  rewrite lstrip_word; [apply reverse_involutive|].
  destruct Hw as [Hne Hw]. split.
  - intros H. apply Hne. by rewrite <- (reverse_involutive w), H.
  - by apply Forall_reverse.
Qed.

(** Reading on after a word in progress. *)
Lemma split_from_app (w u s : pystr) :
  Forall (fun c => isspace_char c = false) u ->
  split_from w (u ++ s) = split_from (w ++ u) s.
Proof.
  revert w. induction u as [|c u IH]; intros w Hu; simpl.
  - by rewrite app_nil_r.
  - apply Forall_cons_1 in Hu as [Hc Hu]. rewrite Hc, IH by done.
    by rewrite <- app_assoc.
Qed.

Lemma split_join_words (ws : list pystr) :
  Forall word ws -> split (join (str " ") ws) = ws.
Proof.
  unfold split. induction ws as [|w ws IH]; [done|].
  intros [[Hne Hw] Hws]%Forall_cons_1. destruct ws as [|w' ws].
  - simpl. rewrite <- (app_nil_r w) at 1.
    rewrite split_from_app by done. simpl. by destruct w.
  - rewrite join_cons by done. rewrite split_from_app by done.
    change (str " " ++ join (str " ") (w' :: ws))
      with (32%N :: join (str " ") (w' :: ws)).
    cbn [split_from app]. change (isspace_char 32) with true.
    cbn match. destruct w as [|c w]; [done|]. simpl str_truthy. cbn match.
    f_equal. by apply IH.
Qed.

(** X24.  [parse_input] fails, with a [ValueError], exactly on the lines
    that are empty or blank.  On any other line it returns the first word,
    lowered, and the words after it: each a text without whitespace and not
    empty, so the [strip] of the command word changes nothing. *)
Theorem parse_input_words (lower : pystr -> pystr) (user_input : pystr) :
  (blank user_input
   <-> parse_input lower user_input
       = inl (ValueError
                (str "not enough values to unpack (expected at least 1, got 0)")))
  /\ forall command args,
       parse_input lower user_input = inr (command, args) ->
       exists cmd,
         split user_input = cmd :: args /\ command = lower cmd
         /\ word cmd /\ Forall word args.
Proof.
  unfold parse_input.
  pose proof (split_from_words [] user_input) as Hw.
  pose proof (split_from_nil [] user_input) as Hn.
  fold (split user_input) in Hw, Hn.
  destruct (split user_input) as [|cmd args]; split.
  - split; [done|]. intros _. by apply Hn.
  - done.
  - split; [|done]. intros Hb.
    assert (cmd :: args = []) by (apply Hn; by split). done.
  - intros command args' [= <- <-].
    apply Forall_cons_1 in Hw as [Hc Ha]; [|constructor].
    exists cmd. by rewrite (strip_word cmd Hc).
Qed.

(** X25.  Words written with single spaces between them are read back as
    they are: the first, lowered, is the command and the others are the
    arguments. *)
Theorem parse_input_join (lower : pystr -> pystr) (cmd : pystr)
    (args : list pystr) :
  Forall word (cmd :: args) ->
  parse_input lower (join (str " ") (cmd :: args)) = inr (lower cmd, args).
Proof.
  intros Hws. unfold parse_input. rewrite (split_join_words _ Hws).
  apply Forall_cons_1 in Hws as [Hc _]. by rewrite (strip_word cmd Hc).
Qed.

Lemma parse_input_join_witness :
  Forall word [str "Add"; str "jane"; str "1234567890"]
  /\ parse_input (fun s => s) (str "Add jane 1234567890")
     = inr (str "Add", [str "jane"; str "1234567890"]).
Proof.
  assert (H : Forall word [str "Add"; str "jane"; str "1234567890"]).
  { repeat constructor; try done; by vm_compute. }
  split; [exact H|].
  exact (parse_input_join (fun s => s) (str "Add")
           [str "jane"; str "1234567890"] H).
Defined.

(** *** The command loop *)

Lemma dispatch_state (command : pystr) (args : list pystr) (now : datetime)
    (book : AddressBook.t) :
  exists ops, snd (dispatch command args now book) = run_ops ops book.
Proof.
  unfold dispatch.
  repeat case_decide.
  - by exists [].
  - exists [OpAddContact args]. simpl. by rewrite bind_ret_tt_state.
  - exists [OpChangeContact args]. simpl. by rewrite bind_ret_tt_state.
  - exists []. apply show_phone_state.
  - exists []. apply show_all_state.
  - exists [OpAddBirthday args]. simpl. by rewrite bind_ret_tt_state.
  - exists []. apply show_birthday_state.
  - exists []. apply birthdays_state.
  - by exists [].
Qed.

Lemma run_ops_app (ops1 ops2 : list op) (book : AddressBook.t) :
  run_ops (ops1 ++ ops2) book = run_ops ops2 (run_ops ops1 book).
Proof. unfold run_ops. apply fold_left_app. Qed.

(** The book at the end of a run comes from the book at its start by calls
    of the add, change and add_birthday handlers. *)
Lemma main_loop_reaches (lower : pystr -> pystr)
    (lines : list (pystr * datetime)) (book : AddressBook.t) :
  exists ops, snd (fst (main_loop lower lines book)) = run_ops ops book.
Proof.
  revert book. induction lines as [|[user_input now] rest IH]; intros book.
  - by exists [].
  - cbn [main_loop].
    destruct (parse_input lower user_input) as [e|[command args]].
    { by exists []. }
    destruct (bool_decide (command = str "close")
              || bool_decide (command = str "exit")).
    { by exists []. }
    destruct (dispatch_state command args now book) as [ops1 H1].
    destruct (dispatch command args now book) as [[e|text] book'];
      simpl in H1.
    + by exists ops1.
    + destruct (IH book') as [ops2 H2].
      destruct (main_loop lower rest book') as [[out final] e].
      simpl in *. exists (ops1 ++ ops2). by rewrite run_ops_app, <- H1.
Qed.

(** X26.  A line that is empty or blank ends the run: [parse_input] raises
    [ValueError], nothing in [main] catches it, and nothing is printed for
    that line or read after it. *)
Theorem main_loop_blank_line (lower : pystr -> pystr) (user_input : pystr)
    (now : datetime) (rest : list (pystr * datetime))
    (book : AddressBook.t) :
  blank user_input ->
  main_loop lower ((user_input, now) :: rest) book
  = ([Prompt prompt_msg], book,
     Raised (ValueError
               (str "not enough values to unpack (expected at least 1, got 0)"))).
Proof.
  intros Hb. cbn [main_loop]. unfold parse_input.
  assert (split user_input = []) as ->; [|done].
  by apply split_from_nil.
Qed.

Lemma main_loop_blank_line_witness :
  blank (str "   ")
  /\ main_loop (fun s => s) [(str "   ", sample_now); (str "all", sample_now)]
       sample_book
     = ([Prompt prompt_msg], sample_book,
        Raised (ValueError
                  (str "not enough values to unpack (expected at least 1, got 0)"))).
Proof.
  assert (H : blank (str "   ")) by (repeat constructor).
  split; [exact H|].
  exact (main_loop_blank_line (fun s => s) (str "   ") sample_now
           [(str "all", sample_now)] sample_book H).
Defined.

(** X27.  However a run of [main] goes and however it ends, the book it
    leaves has distinct keys, every record under its own name, phones in the
    phone format only and birthdays that the parser takes only. *)
Theorem main_book_invariants (lower : pystr -> pystr)
    (lines : list (pystr * datetime)) :
  let final := snd (fst (main lower lines)) in
  book_keys_ok final /\ book_phones_ok final /\ book_birthdays_ok final.
Proof.
  unfold main.
  destruct (main_loop_reaches lower lines AddressBook.init) as [ops H].
  destruct (main_loop lower lines AddressBook.init) as [[out final] e].
  simpl in *. subst final. split_and!.
  - apply run_ops_keys_ok. split; constructor.
  - apply (run_ops_values phones_ok); [apply run_op_phones_ok|constructor].
  - apply run_ops_birthdays_ok. constructor.
Qed.

(** *** The properties above on sample inputs *)

Lemma remove_phone_first_occurrence_witness :
  Record_.phones record_with_two_phones
  = [Phone.mk (str "1234567890")] ++ Phone.mk (str "0987654321") :: []
  /\ Forall (fun q => Phone.value q <> str "0987654321")
       [Phone.mk (str "1234567890")]
  /\ Record_.remove_phone (str "0987654321") record_with_two_phones
     = (inr (str "Phone 0987654321 removed."),
        Record_.set_phones ([Phone.mk (str "1234567890")] ++ [])
          record_with_two_phones).
Proof.
  assert (H : Forall (fun q => Phone.value q <> str "0987654321")
                [Phone.mk (str "1234567890")])
    by (repeat constructor; by vm_compute).
  split; [reflexivity|]. split; [exact H|].
  exact (remove_phone_first_occurrence (str "0987654321")
           record_with_two_phones [Phone.mk (str "1234567890")] []
           (Phone.mk (str "0987654321")) eq_refl eq_refl H).
Defined.

Lemma edit_phone_replaces_in_place_witness :
  Forall (fun q => Phone.value q <> str "0987654321")
    [Phone.mk (str "1234567890")]
  /\ ten_digits (str "1111111111") = true
  /\ Record_.edit_phone (str "0987654321") (str "1111111111")
       record_with_two_phones
     = (inr (str "Phone 0987654321 edited to 1111111111."),
        Record_.set_phones
          ([Phone.mk (str "1234567890")] ++ Phone.mk (str "1111111111") :: [])
          record_with_two_phones).
Proof.
  assert (H : Forall (fun q => Phone.value q <> str "0987654321")
                [Phone.mk (str "1234567890")])
    by (repeat constructor; by vm_compute).
  split; [exact H|]. split; [reflexivity|].
  exact (edit_phone_replaces_in_place (str "0987654321") (str "1111111111")
           record_with_two_phones [Phone.mk (str "1234567890")] []
           (Phone.mk (str "0987654321")) eq_refl eq_refl H eq_refl).
Defined.

Lemma phone_absent_no_change_witness :
  Forall (fun q => Phone.value q <> str "5555555555")
    (Record_.phones record_with_two_phones)
  /\ Record_.remove_phone (str "5555555555") record_with_two_phones
     = (inr (str "Phone 5555555555 not found."), record_with_two_phones)
  /\ Record_.edit_phone (str "5555555555") (str "1111111111")
       record_with_two_phones
     = (inr (str "Phone 5555555555 not found."), record_with_two_phones)
  /\ Record_.find_phone (str "5555555555") record_with_two_phones = None.
Proof.
  assert (H : Forall (fun q => Phone.value q <> str "5555555555")
                (Record_.phones record_with_two_phones))
    by (repeat constructor; by vm_compute).
  split; [exact H|].
  exact (phone_absent_no_change (str "5555555555") (str "1111111111")
           record_with_two_phones H).
Defined.

Lemma add_contact_then_show_phone_witness :
  ten_digits (str "1234567890") = true
  /\ add_contact [str "jane"; str "1234567890"] sample_book
     = (inr (str "Contact added."),
        AddressBook.mk
          (Dict.set (str "jane")
             (Record_.mk (Name.mk (str "jane"))
                [Phone.mk (str "1234567890")] None)
             (AddressBook.data sample_book))).
Proof.
  split; [reflexivity|].
  exact (proj1 (add_contact_then_show_phone (str "jane") (str "1234567890")
                  sample_book eq_refl)).
Defined.

Lemma add_contact_malformed_then_lookup_witness :
  ten_digits (str "123") = false
  /\ show_phone [str "bob"]
       (snd (add_contact [str "bob"; str "123"] AddressBook.init))
     = (inr contact_not_found_msg,
        snd (add_contact [str "bob"; str "123"] AddressBook.init)).
Proof.
  split; [reflexivity|].
  exact (proj1 (add_contact_malformed_then_lookup (str "bob") (str "123")
                  (str "1111111111") AddressBook.init eq_refl)).
Defined.

Lemma change_contact_updates_first_phone_witness :
  Dict.get (str "jane") (AddressBook.data sample_book)
  = Some record_with_birthday
  /\ ten_digits (str "5555555555") = true
  /\ change_contact [str "jane"; str "5555555555"] sample_book
     = (inr (str "Contact updated."),
        AddressBook.mk
          (Dict.set (str "jane")
             (Record_.set_phones [Phone.mk (str "5555555555")]
                record_with_birthday)
             (AddressBook.data sample_book))).
Proof.
  split; [reflexivity|]. split; [reflexivity|].
  exact (proj1 (change_contact_updates_first_phone sample_book (str "jane")
                  (str "5555555555") record_with_birthday
                  (Phone.mk (str "1234567890")) [] eq_refl eq_refl eq_refl)).
Defined.

Lemma add_birthday_then_show_birthday_witness :
  accepted_date_text (str "05.05.1990")
  /\ add_birthday [str "bob"; str "05.05.1990"] book_with_bob
     = (inr (str "Birthday added for bob."),
        AddressBook.mk
          (Dict.set (str "bob")
             (Record_.set_birthday (Some (Birthday.mk (str "05.05.1990")))
                (Record_.mk (Name.mk (str "bob")) [] None))
             (AddressBook.data book_with_bob))).
Proof.
  assert (H : accepted_date_text (str "05.05.1990")).
  { exists (str "05"), (str "05"), (str "1990"). split_and!; reflexivity. }
  split; [exact H|].
  exact (proj1 (add_birthday_then_show_birthday book_with_bob (str "bob")
                  (str "05.05.1990") (Record_.mk (Name.mk (str "bob")) [] None)
                  eq_refl eq_refl H)).
Defined.

Lemma sample_book_keys_ok : book_keys_ok sample_book.
Proof.
  split.
  - repeat (apply NoDup_cons_2;
              [rewrite ?not_elem_of_cons; split_and?;
               try (by vm_compute); apply not_elem_of_nil|]).
    apply NoDup_nil_2.
  - repeat constructor.
Defined.

Lemma delete_then_find_witness :
  NoDup (Dict.keys (AddressBook.data sample_book))
  /\ fst (AddressBook.find (str "ann")
            (snd (AddressBook.delete (str "ann") sample_book)))
     = inr None.
Proof.
  split; [exact (proj1 sample_book_keys_ok)|].
  exact (proj1 (delete_then_find sample_book (str "ann")
                  (proj1 sample_book_keys_ok))).
Defined.

Lemma book_keys_invariant_witness :
  book_keys_ok sample_book
  /\ book_keys_ok (run_ops sample_ops sample_book).
Proof.
  split; [exact sample_book_keys_ok|].
  exact (proj1 (book_keys_invariant sample_ops sample_book
                  sample_book_keys_ok)).
Defined.

Lemma sample_book_birthdays_ok : book_birthdays_ok sample_book.
Proof. repeat constructor; eexists; vm_compute; reflexivity. Defined.

Lemma birthdays_parse_invariant_witness :
  book_birthdays_ok sample_book
  /\ book_birthdays_ok (run_ops sample_ops sample_book).
Proof.
  split; [exact sample_book_birthdays_ok|].
  exact (birthdays_parse_invariant sample_ops sample_book
           sample_book_birthdays_ok).
Defined.

Lemma show_all_lines_witness :
  book_birthdays_ok sample_book
  /\ show_all sample_book
     = (inr (join newline
               (Record_.to_str <$> Dict.values (AddressBook.data sample_book))),
        sample_book).
Proof.
  split; [exact sample_book_birthdays_ok|].
  exact (show_all_lines sample_book sample_book_birthdays_ok).
Defined.
